(** * foo_out_avfoundation: the streaming delivery engine and the sample converter

    A shallow embedding of [AVFEngineImpl] (engine.mm, the sample-buffer
    renderer variant) and of [utils::neon_convert] (common/utils.hpp),
    followed by the properties of the two that the specification states.

    Conventions.
    - Fixed-width C integers are [Z] values; conversions between widths are
      written out ([to_int64], [to_int32], [to_uint32]).
    - The engine object is a record [Engine]; every method is a function
      from the engine to the engine after the call, paired with the method's
      return value where it has one.
    - Framework calls that can fail (allocation, buffer creation, format
      creation) take their outcome from an [Externals] record supplied with
      the call.
    - [logMessage] appends to [console]; a line keeps the format string and
      the integer arguments it was called with. *)

From Stdlib Require Import ZArith Bool String List Lia.
From Stdlib Require Import Floats.SpecFloat.
From stdpp Require Import base list.
Import ListNotations.

Local Open Scope Z_scope.

(** ** Integer conversions *)

Definition to_int64 (z : Z) : Z := (z + 2 ^ 63) mod 2 ^ 64 - 2 ^ 63.
Definition to_int32 (z : Z) : Z := (z + 2 ^ 31) mod 2 ^ 32 - 2 ^ 31.
Definition to_uint32 (z : Z) : Z := z mod 2 ^ 32.

(** ** CoreMedia time values

    [CMTime] is CoreMedia's rational time: [value / timescale] seconds, with
    a validity flag.  In CoreMedia [value] is an int64 and [timescale] an
    int32; the model keeps both as unbounded integers.  [CMTimeAdd] is
    CoreMedia's; it is modelled by its documented behaviour on operands
    whose sum is representable: the result is exact, on the least common
    multiple of the two timescales, and any invalid operand gives an
    invalid result.  When that least common multiple exceeds
    [kCMTimeMaxTimescale], or the value leaves 64 bits, CoreMedia rounds
    and the model no longer describes it: statements that depend on the
    arithmetic assume the sums representable ([sumRepresentable] below). *)

Record CMTime := mkCMTime { value : Z; timescale : Z; flagValid : bool }.

Definition kCMTimeZero : CMTime := mkCMTime 0 1 true.
Definition kCMTimeInvalid : CMTime := mkCMTime 0 0 false.


Definition CMTimeMake (v ts : Z) : CMTime := mkCMTime v ts true.

Definition CMTimeAdd (a b : CMTime) : CMTime :=
  if flagValid a && flagValid b then
    let l := Z.lcm (timescale a) (timescale b) in
    mkCMTime (value a * (l / timescale a) + value b * (l / timescale b)) l true
  else kCMTimeInvalid.




(** ** Audio formats *)

Record AudioStreamBasicDescription := mkASBD {
  mSampleRate : Z;
  mFormatID : Z;
  mFormatFlags : Z;
  mBytesPerPacket : Z;
  mFramesPerPacket : Z;
  mBytesPerFrame : Z;
  mChannelsPerFrame : Z;
  mBitsPerChannel : Z
}.

Definition kAudioFormatLinearPCM : Z := 0x6C70636D.
Definition kLinearPCMFormatFlagIsFloat : Z := 1.
Definition kLinearPCMFormatFlagIsPacked : Z := 8.

(** How an [AVAudioFormat] was built: [initWithCommonFormat:] with
    [AVAudioPCMFormatFloat32], or [initWithStreamDescription:]. *)
Inductive FormatSource :=
| CommonFloat32 (interleaved : bool)
| StreamDescription (asbd : AudioStreamBasicDescription).

(** [fmtSampleRate] is a double in the source; the engine only ever stores
    the image of a [uint32_t], which a double holds exactly. *)
Record AVAudioFormat := mkFormat {
  fmtSampleRate : Z;
  fmtChannelCount : Z;
  fmtSource : FormatSource
}.

(** Messaging [nil] returns zero. *)
Definition formatSampleRate (f : option AVAudioFormat) : Z :=
  match f with Some x => fmtSampleRate x | None => 0 end.
Definition formatChannelCount (f : option AVAudioFormat) : Z :=
  match f with Some x => fmtChannelCount x | None => 0 end.

(** ** Playback units

    A [CMSampleBuffer] as [CMSampleBufferCreateReady] receives it in
    [feedAudioData].  Samples are 32-bit floats, kept as their bit
    patterns. *)

Record CMSampleBuffer := mkSampleBuffer {
  sbData : list Z;
  sbDataSize : Z;
  sbFormat : option AVAudioFormat;
  sbNumSamples : Z;
  sbDuration : CMTime;
  sbPresentationTimeStamp : CMTime;
  sbDecodeTimeStamp : CMTime;
  sbSampleSize : Z
}.

(** ** The sink: renderer and synchronizer

    [rate] is the synchronizer's rate (0.0 or 1.0), [volume] the renderer's
    volume (only 1.0 is written by the methods below), [enqueued] the
    buffers handed over by [enqueueSampleBuffer:] and not yet flushed. *)

Record Sink := mkSink {
  rate : Z;
  volume : Z;
  muted : bool;
  requestingMediaData : bool;
  enqueued : list CMSampleBuffer
}.

Definition freshSink : Sink := mkSink 0 1 false false [].

Definition sinkSetRate (r : Z) (k : Sink) : Sink :=
  mkSink r (volume k) (muted k) (requestingMediaData k) (enqueued k).
Definition sinkSetVolume (v : Z) (k : Sink) : Sink :=
  mkSink (rate k) v (muted k) (requestingMediaData k) (enqueued k).
Definition sinkSetMuted (m : bool) (k : Sink) : Sink :=
  mkSink (rate k) (volume k) m (requestingMediaData k) (enqueued k).
Definition sinkSetRequesting (b : bool) (k : Sink) : Sink :=
  mkSink (rate k) (volume k) (muted k) b (enqueued k).
Definition sinkFlush (k : Sink) : Sink :=
  mkSink (rate k) (volume k) (muted k) (requestingMediaData k) [].
Definition sinkEnqueue (u : CMSampleBuffer) (k : Sink) : Sink :=
  mkSink (rate k) (volume k) (muted k) (requestingMediaData k) (enqueued k ++ [u]).

(** ** The engine object *)

Record LogLine := mkLogLine {
  viaCallback : bool;
  logFormat : string;
  logArgs : list Z
}.

Record Engine := mkEngine {
  macOS11 : bool;                           (* the macOS 11.0 availability check *)
  logCallback : bool;                       (* _logCallback != nullptr *)
  renderer : option Sink;                   (* renderer and synchronizer *)
  currentFormat : option AVAudioFormat;
  nextPresentationTime : CMTime;
  lastBufferPresentationTime : CMTime;
  sampleQueue : list CMSampleBuffer;        (* front of the queue first *)
  maxQueueSize : Z;
  isEnabled : bool;
  isPaused : bool;
  console : list LogLine
}.

Definition setRenderer (r : option Sink) (e : Engine) : Engine :=
  mkEngine (macOS11 e) (logCallback e) r (currentFormat e)
    (nextPresentationTime e) (lastBufferPresentationTime e) (sampleQueue e)
    (maxQueueSize e) (isEnabled e) (isPaused e) (console e).
Definition setCurrentFormat (f : option AVAudioFormat) (e : Engine) : Engine :=
  mkEngine (macOS11 e) (logCallback e) (renderer e) f
    (nextPresentationTime e) (lastBufferPresentationTime e) (sampleQueue e)
    (maxQueueSize e) (isEnabled e) (isPaused e) (console e).
Definition setTimeline (next last : CMTime) (e : Engine) : Engine :=
  mkEngine (macOS11 e) (logCallback e) (renderer e) (currentFormat e)
    next last (sampleQueue e)
    (maxQueueSize e) (isEnabled e) (isPaused e) (console e).
Definition setSampleQueue (q : list CMSampleBuffer) (e : Engine) : Engine :=
  mkEngine (macOS11 e) (logCallback e) (renderer e) (currentFormat e)
    (nextPresentationTime e) (lastBufferPresentationTime e) q
    (maxQueueSize e) (isEnabled e) (isPaused e) (console e).
Definition setMaxQueueSize (n : Z) (e : Engine) : Engine :=
  mkEngine (macOS11 e) (logCallback e) (renderer e) (currentFormat e)
    (nextPresentationTime e) (lastBufferPresentationTime e) (sampleQueue e)
    n (isEnabled e) (isPaused e) (console e).
Definition setIsEnabled (b : bool) (e : Engine) : Engine :=
  mkEngine (macOS11 e) (logCallback e) (renderer e) (currentFormat e)
    (nextPresentationTime e) (lastBufferPresentationTime e) (sampleQueue e)
    (maxQueueSize e) b (isPaused e) (console e).
Definition setIsPaused (b : bool) (e : Engine) : Engine :=
  mkEngine (macOS11 e) (logCallback e) (renderer e) (currentFormat e)
    (nextPresentationTime e) (lastBufferPresentationTime e) (sampleQueue e)
    (maxQueueSize e) (isEnabled e) b (console e).
Definition setConsole (c : list LogLine) (e : Engine) : Engine :=
  mkEngine (macOS11 e) (logCallback e) (renderer e) (currentFormat e)
    (nextPresentationTime e) (lastBufferPresentationTime e) (sampleQueue e)
    (maxQueueSize e) (isEnabled e) (isPaused e) c.
Definition setLogCallback (cb : bool) (e : Engine) : Engine :=
  mkEngine (macOS11 e) cb (renderer e) (currentFormat e)
    (nextPresentationTime e) (lastBufferPresentationTime e) (sampleQueue e)
    (maxQueueSize e) (isEnabled e) (isPaused e) (console e).

(** Applies [f] to the sink when there is one; messages to [nil] do nothing. *)
Definition onSink (f : Sink -> Sink) (e : Engine) : Engine :=
  setRenderer (option_map f (renderer e)) e.

(** [init]: on systems before macOS 11 the renderer stays [nil] and the
    remaining instance variables keep their zero initial values. *)
Definition init (available : bool) : Engine :=
  if available then
    mkEngine true false (Some freshSink) None kCMTimeZero kCMTimeInvalid []
      8 false false []
  else
    mkEngine false false None None kCMTimeInvalid kCMTimeInvalid []
      0 false false [].

Definition logMessage (fmt : string) (args : list Z) (e : Engine) : Engine :=
  setConsole (console e ++ [mkLogLine (logCallback e) fmt args]) e.

Definition msgQueueSizeSet : string := "[AVF] Sample queue size set to %u".
Definition msgQueueSizeInvalid : string :=
  "[AVF] Invalid queue size %u (must be 1-10), keeping current value %u".
Definition msgFormatFailed : string := "[AVF] Failed to create AVAudioFormat".
Definition msgNotAvailable : string :=
  "[AVF] Error: AVSampleBufferAudioRenderer not available on this system".
Definition msgMissingComponents : string :=
  "[AVF] Error: Missing required components for audio playback".
Definition msgEnabled : string :=
  "[AVF] Audio engine enabled successfully using sample buffer renderer".
Definition msgDisabled : string := "[AVF] Audio engine disabled".
Definition msgPaused : string := "[AVF] Paused audio playback".
Definition msgResumed : string := "[AVF] Resumed audio playback".
Definition msgInvalidParams : string := "[AVF] Invalid audio data parameters".
Definition msgAllocFailed : string :=
  "[AVF] Failed to allocate memory for audio data".
Definition msgBlockBufferFailed : string :=
  "[AVF] Failed to create block buffer: %d".
Definition msgSampleBufferFailed : string :=
  "[AVF] Failed to create sample buffer: %d".

(** [setQueueSize:] *)
Definition setQueueSize (size : Z) (e : Engine) : Engine :=
  if (0 <? size) && (size <=? 10) then
    logMessage msgQueueSizeSet [size] (setMaxQueueSize size e)
  else
    logMessage msgQueueSizeInvalid [size; maxQueueSize e] e.

(** The format [setupAudioFormat:channels:] asks AVFoundation to build. *)
Definition requestedFormat (sampleRate channels : Z) : AVAudioFormat :=
  if (channels =? 1) || (channels =? 2) then
    mkFormat sampleRate channels (CommonFloat32 true)
  else
    let bitsPerChannel := 32 in
    let bytesPerFrame := to_uint32 (channels * (bitsPerChannel / 8)) in
    let framesPerPacket := 1 in
    mkFormat sampleRate channels
      (StreamDescription
         (mkASBD sampleRate kAudioFormatLinearPCM
            (Z.lor kLinearPCMFormatFlagIsFloat kLinearPCMFormatFlagIsPacked)
            (to_uint32 (bytesPerFrame * framesPerPacket))
            framesPerPacket bytesPerFrame channels bitsPerChannel)).

(** [setupAudioFormat:channels:]; [created] tells whether AVFoundation
    returned a format object rather than [nil]. *)
Definition setupAudioFormat (created : bool) (sampleRate channels : Z)
    (e : Engine) : bool * Engine :=
  if macOS11 e then
    if (sampleRate =? formatSampleRate (currentFormat e))
       && (channels =? formatChannelCount (currentFormat e)) then
      (true, e)
    else
      let audioFormat :=
        if created then Some (requestedFormat sampleRate channels) else None in
      match audioFormat with
      | None => (false, logMessage msgFormatFailed [] e)
      | Some f => (true, setCurrentFormat (Some f) e)
      end
  else
    (false, logMessage msgNotAvailable [] e).

(** [enable].  The renderer's [allowedAudioSpatializationFormats], set on
    macOS 12, is not part of the model. *)
Definition enable (e : Engine) : bool * Engine :=
  if isEnabled e then (true, e)
  else
    match renderer e with
    | None => (false, logMessage msgMissingComponents [] e)
    | Some _ =>
        if macOS11 e then
          let e1 := onSink (fun k => sinkSetMuted false (sinkSetVolume 1 (sinkSetRate 1 k))) e in
          let e2 := setTimeline kCMTimeZero kCMTimeInvalid e1 in
          let e3 := setSampleQueue [] e2 in
          let e4 := onSink (sinkSetRequesting true) e3 in
          let e5 := setIsPaused false e4 in
          let e6 := setIsEnabled true e5 in
          (true, logMessage msgEnabled [] e6)
        else
          (false, logMessage msgNotAvailable [] e)
    end.

(** [disable] *)
Definition disable (e : Engine) : Engine :=
  if negb (isEnabled e) then e
  else
    let e1 :=
      if macOS11 e then
        let a := onSink (sinkSetRequesting false) e in
        let b := setSampleQueue [] a in
        onSink (fun k => sinkFlush (sinkSetRate 0 k)) b
      else e in
    logMessage msgDisabled [] (setIsPaused false (setIsEnabled false e1)).

(** [pause] *)
Definition pause (e : Engine) : Engine :=
  if negb (isEnabled e) then e
  else
    let e1 := setIsPaused true e in
    if macOS11 e1 then logMessage msgPaused [] (onSink (sinkSetRate 0) e1)
    else e1.

(** [resume] *)
Definition resume (e : Engine) : Engine :=
  if negb (isEnabled e) || negb (isPaused e) then e
  else
    let e1 :=
      if macOS11 e then logMessage msgResumed [] (onSink (sinkSetRate 1) e)
      else e in
    setIsPaused false e1.

(** [renderFromQueue], the consumer callback. *)
Definition renderFromQueue (e : Engine) : Engine :=
  if negb (isEnabled e) || isPaused e then e
  else
    match sampleQueue e with
    | [] => e
    | sampleBuffer :: rest =>
        let e1 := setSampleQueue rest e in
        if macOS11 e1 then onSink (sinkEnqueue sampleBuffer) e1 else e1
    end.

(** Outcomes of the framework calls made by one [feedAudioData] call. *)
Record Externals := mkExternals {
  formatCreated : bool;         (* AVAudioFormat alloc/init returned an object *)
  allocated : bool;             (* CFAllocatorAllocate returned memory *)
  blockBufferStatus : Z;        (* CMBlockBufferCreateWithMemoryBlock *)
  sampleBufferStatus : Z;       (* CMSampleBufferCreateReady *)
  sampleBufferReturned : bool   (* sampleBuffer != NULL *)
}.

Definition noErr : Z := 0.

Definition to_uint64 (z : Z) : Z := z mod 2 ^ 64.

(** [feedAudioData:sampleRate:channels:frameCount:]; the result is the
    number of frames accepted. *)
Definition feedAudioData (x : Externals) (audioData : list Z)
    (sampleRate channels frameCount : Z) (e : Engine) : Z * Engine :=
  if negb (isEnabled e) || isPaused e then (0, e)
  else if (Z.of_nat (length audioData) =? 0) || (frameCount =? 0) || (channels =? 0) then
    (0, logMessage msgInvalidParams [] e)
  else
    let (formatOk, e1) := setupAudioFormat (formatCreated x) sampleRate channels e in
    if negb formatOk then (0, e1)
    else if macOS11 e1 then
      if Z.of_nat (length (sampleQueue e1)) >=? maxQueueSize e1 then (0, e1)
      else
        let sampleSize := to_uint64 (4 * channels) in
        let dataSize := to_uint64 (4 * Z.of_nat (length audioData)) in
        if negb (allocated x) then (0, logMessage msgAllocFailed [] e1)
        else if negb (blockBufferStatus x =? noErr) then
          (0, logMessage msgBlockBufferFailed [to_int32 (blockBufferStatus x)] e1)
        else
          let frameDuration := CMTimeMake (to_int64 frameCount) (to_int32 sampleRate) in
          let currentPresentationTime := nextPresentationTime e1 in
          let e2 :=
            setTimeline (CMTimeAdd (nextPresentationTime e1) frameDuration)
              currentPresentationTime e1 in
          let sampleBuffer :=
            mkSampleBuffer audioData dataSize (currentFormat e2)
              (to_int64 frameCount) frameDuration kCMTimeInvalid kCMTimeInvalid
              sampleSize in
          if (sampleBufferStatus x =? noErr) && sampleBufferReturned x then
            (frameCount, setSampleQueue (sampleQueue e2 ++ [sampleBuffer]) e2)
          else
            (0, logMessage msgSampleBufferFailed [to_int32 (sampleBufferStatus x)] e2)
    else (0, logMessage msgNotAvailable [] e1).

(** [flush] *)
Definition flush (e : Engine) : Engine :=
  if negb (isEnabled e) then e
  else if macOS11 e then
    onSink sinkFlush (setTimeline kCMTimeZero kCMTimeInvalid e)
  else e.

(** [isReadyForMoreMediaData] *)
Definition isReadyForMoreMediaData (e : Engine) : bool :=
  if negb (isEnabled e) || isPaused e then false
  else Z.of_nat (length (sampleQueue e)) <? maxQueueSize e.

(** [pendingBufferCount] *)
Definition pendingBufferCount (e : Engine) : Z :=
  to_uint32 (Z.of_nat (length (sampleQueue e))).

(** ** Call sequences *)

Record FeedCall := mkFeedCall {
  fcExternals : Externals;
  fcData : list Z;
  fcSampleRate : Z;
  fcChannels : Z;
  fcFrameCount : Z
}.

Definition feed (c : FeedCall) (e : Engine) : Z * Engine :=
  feedAudioData (fcExternals c) (fcData c) (fcSampleRate c) (fcChannels c)
    (fcFrameCount c) e.

(** The calls the host and the renderer make on an engine. *)
Inductive Op :=
| OpSetQueueSize (size : Z)
| OpSetLogCallback (cb : bool)
| OpSetupAudioFormat (created : bool) (sampleRate channels : Z)
| OpEnable
| OpDisable
| OpPause
| OpResume
| OpRenderFromQueue
| OpFeed (c : FeedCall)
| OpFlush.

Definition step (o : Op) (e : Engine) : Engine :=
  match o with
  | OpSetQueueSize n => setQueueSize n e
  | OpSetLogCallback cb => setLogCallback cb e
  | OpSetupAudioFormat created sr ch => snd (setupAudioFormat created sr ch e)
  | OpEnable => snd (enable e)
  | OpDisable => disable e
  | OpPause => pause e
  | OpResume => resume e
  | OpRenderFromQueue => renderFromQueue e
  | OpFeed c => snd (feed c e)
  | OpFlush => flush e
  end.

Definition run (ops : list Op) (e : Engine) : Engine :=
  fold_left (fun acc o => step o acc) ops e.

(** Feeds the calls one after the other with no consumption in between;
    returns the accepted frame counts in call order. *)
Fixpoint feedAll (calls : list FeedCall) (e : Engine) : list Z * Engine :=
  match calls with
  | [] => ([], e)
  | c :: rest =>
      let (n, e1) := feed c e in
      let (ns, e2) := feedAll rest e1 in
      (n :: ns, e2)
  end.

(** All framework calls of the feed succeed. *)
Definition externalsOk : Externals := mkExternals true true noErr noErr true.

(** Two interleaved channels of silence, [frames] frames long. *)
Definition stereoSilence (frames : nat) : list Z := repeat 0 (2 * frames).

Definition stereoCall (frames : Z) (sampleRate : Z) : FeedCall :=
  mkFeedCall externalsOk (stereoSilence (Z.to_nat frames)) sampleRate 2 frames.

(** ** The sample converter: [utils::neon_convert]

    Buffers are lists indexed from the pointer's base; a load or store
    outside the buffer (undefined behaviour in the source) makes the model
    return [None].  The element types and the two narrowing conversions, the
    C cast [(float)x] and one lane of [vcvt_f32_f64], are parameters. *)

Module Neon.
Section Convert.
Local Open Scope nat_scope.

Variables F64 F32 : Type.
Variable cast : F64 -> F32.
Variable fcvtn : F64 -> F32.

Definition float64x2_t : Type := F64 * F64.
Definition float32x2_t : Type := F32 * F32.
Definition float32x4_t : Type := F32 * F32 * F32 * F32.

Definition store (out : list F32) (i : nat) (x : F32) : option (list F32) :=
  if i <? length out then Some (<[i:=x]> out) else None.

Definition vld1q_f64 (mem : list F64) (i : nat) : option float64x2_t :=
  a ← mem !! i; b ← mem !! (i + 1); Some (a, b).

Definition vcvt_f32_f64 (d : float64x2_t) : float32x2_t :=
  (fcvtn (fst d), fcvtn (snd d)).

Definition vcombine_f32 (lo hi : float32x2_t) : float32x4_t :=
  (fst lo, snd lo, fst hi, snd hi).

Definition vst1q_f32 (out : list F32) (i : nat) (v : float32x4_t)
    : option (list F32) :=
  let '(a, b, c, d) := v in
  o1 ← store out i a;
  o2 ← store o1 (i + 1) b;
  o3 ← store o2 (i + 2) c;
  store o3 (i + 3) d.

(** The [while (n--)] loop; [src] and [dst] are the offsets the two
    pointers have advanced to. *)
Fixpoint main_loop (n : nat) (input : list F64) (src : nat)
    (output : list F32) (dst : nat) : option (nat * nat * list F32) :=
  match n with
  | O => Some (src, dst, output)
  | S n' =>
      d1 ← vld1q_f64 input src;
      d2 ← vld1q_f64 input (src + 2);
      d3 ← vld1q_f64 input (src + 4);
      d4 ← vld1q_f64 input (src + 6);
      d5 ← vld1q_f64 input (src + 8);
      d6 ← vld1q_f64 input (src + 10);
      d7 ← vld1q_f64 input (src + 12);
      d8 ← vld1q_f64 input (src + 14);
      let src' := src + 16 in
      o1 ← vst1q_f32 output dst (vcombine_f32 (vcvt_f32_f64 d1) (vcvt_f32_f64 d2));
      o2 ← vst1q_f32 o1 (dst + 4) (vcombine_f32 (vcvt_f32_f64 d3) (vcvt_f32_f64 d4));
      o3 ← vst1q_f32 o2 (dst + 8) (vcombine_f32 (vcvt_f32_f64 d5) (vcvt_f32_f64 d6));
      o4 ← vst1q_f32 o3 (dst + 12) (vcombine_f32 (vcvt_f32_f64 d7) (vcvt_f32_f64 d8));
      main_loop n' input src' o4 (dst + 16)
  end.

(** The scalar [for (i = 0; i < remaining; i++)] loop; [fuel] bounds the
    number of iterations. *)
Fixpoint tail_loop (fuel : nat) (remaining i : nat) (input : list F64)
    (src : nat) (output : list F32) (dst : nat) : option (list F32) :=
  if i <? remaining then
    match fuel with
    | O => None
    | S fuel' =>
        x ← input !! (src + i);
        o ← store output (dst + i) (cast x);
        tail_loop fuel' remaining (S i) input src o dst
    end
  else Some output.

Definition neon_convert (input : list F64) (output : list F32) (count : nat)
    : option (list F32) :=
  let n := count / 16 in
  '(src, dst, out1) ← main_loop n input 0 output 0;
  let remaining := count mod 16 in
  tail_loop remaining remaining 0 input src out1 dst.

(** The elementwise scalar conversion of the first [count] samples. *)
Definition scalar_convert (input : list F64) (output : list F32) (count : nat)
    : list F32 :=
  (cast <$> take count input) ++ drop count output.

End Convert.
End Neon.

(** IEEE 754 narrowing from binary64 to binary32, round to nearest even, on
    the standard library's specification floats. *)
Definition float_of_double (x : spec_float) : spec_float :=
  match x with
  | S754_finite s m e => binary_round 24 128 s m e
  | _ => x
  end.

Definition double_finite (x : spec_float) : Prop :=
  match x with
  | S754_finite _ _ _ | S754_zero _ => True
  | _ => False
  end.

(** ** Vocabulary of the statements *)

Definition queueLength (e : Engine) : Z := Z.of_nat (length (sampleQueue e)).

(** The buffers the sink has been handed; empty when there is no sink. *)
Definition delivered (e : Engine) : list CMSampleBuffer :=
  match renderer e with Some k => enqueued k | None => [] end.

Definition hasSink (e : Engine) : bool :=
  match renderer e with Some _ => true | None => false end.

Definition sinkRate (e : Engine) : Z :=
  match renderer e with Some k => rate k | None => 0 end.

(** The duration [feedAudioData] computes for a call: [frameCount / sampleRate]. *)
Definition callDuration (c : FeedCall) : CMTime :=
  CMTimeMake (to_int64 (fcFrameCount c)) (to_int32 (fcSampleRate c)).

Definition externalsSucceed (x : Externals) : Prop :=
  formatCreated x = true /\ allocated x = true /\ blockBufferStatus x = noErr
  /\ sampleBufferStatus x = noErr /\ sampleBufferReturned x = true.

(** A call that passes the input validation and whose framework calls succeed. *)
Definition acceptableCall (c : FeedCall) : Prop :=
  fcData c <> [] /\ fcFrameCount c <> 0 /\ fcChannels c <> 0
  /\ externalsSucceed (fcExternals c).



(** What one feed call of a session produced: the frames accepted and the
    timestamp the timeline holds for the unit right after the call. *)
Record FeedResult := mkFeedResult {
  frAccepted : Z;
  frTimestamp : CMTime;
  frUnit : option CMSampleBuffer;      (* back of the queue after the call *)
  frCall : FeedCall
}.

(** Runs [ops], reporting every feed call in order. *)
Fixpoint session (ops : list Op) (e : Engine) : list FeedResult :=
  match ops with
  | [] => []
  | o :: rest =>
      match o with
      | OpFeed c =>
          let (n, e1) := feed c e in
          [mkFeedResult n (lastBufferPresentationTime e1)
             (last (sampleQueue e1)) c]
      | _ => []
      end ++ session rest (step o e)
  end.


(** Starting at [t], every timestamp is the previous one plus the previous
    duration. *)
Fixpoint gapless (t : CMTime) (l : list (CMTime * CMTime)) : Prop :=
  match l with
  | [] => True
  | (pt, d) :: rest => pt = t /\ gapless (CMTimeAdd t d) rest
  end.

Definition stampOf (r : FeedResult) : CMTime * CMTime :=
  (frTimestamp r, callDuration (frCall r)).

(** The states in which a session begins: right after a successful
    [enable] of a disabled engine, or right after a [flush] of an enabled one. *)
Inductive SessionStart : Engine -> Prop :=
| StartEnable e :
    isEnabled e = false -> fst (enable e) = true -> SessionStart (snd (enable e))
| StartFlush e :
    isEnabled e = true -> macOS11 e = true -> SessionStart (flush e).

(** [o] is a [setQueueSize:] that lowers the capacity below the number of
    units queued in [e]. *)
Definition shrinksBelowQueue (o : Op) (e : Engine) : bool :=
  match o with
  | OpSetQueueSize n => (0 <? n) && (n <=? 10) && (n <? queueLength e)
  | _ => false
  end.

Fixpoint neverShrinksBelowQueue (ops : list Op) (e : Engine) : bool :=
  match ops with
  | [] => true
  | o :: rest => negb (shrinksBelowQueue o e) && neverShrinksBelowQueue rest (step o e)
  end.

(** Five accepted units under the default capacity, then a smaller capacity. *)
Definition shrinkScenario : list Op :=
  OpEnable :: repeat (OpFeed (stereoCall 100 48000)) 5 ++ [OpSetQueueSize 3].

(** One accepted unit, then a flush. *)
Definition flushScenario : list Op :=
  [OpEnable; OpFeed (stereoCall 100 48000); OpFlush].

Definition accepted (r : FeedResult) : Prop := frAccepted r <> 0.



(** The host's configuration: capacity 3, enabled. *)
Definition hostEngine : Engine := run [OpSetQueueSize 3; OpEnable] (init true).

(** Sample input of the converter: seventeen doubles just above 1.0. *)
Definition sampleDoubles : list spec_float :=
  map (fun i => S754_finite false (4503599627370496 + i * 536870912 + 1) (-52))
      [1; 2; 3; 4; 5; 6; 7; 8; 9; 10; 11; 12; 13; 14; 15; 16; 17]%positive.

(** [e'] differs from [e] at most in the capacity and the console. *)
Definition sameButCapacityAndConsole (e e' : Engine) : Prop :=
  macOS11 e' = macOS11 e /\ logCallback e' = logCallback e
  /\ renderer e' = renderer e /\ currentFormat e' = currentFormat e
  /\ nextPresentationTime e' = nextPresentationTime e
  /\ lastBufferPresentationTime e' = lastBufferPresentationTime e
  /\ sampleQueue e' = sampleQueue e
  /\ isEnabled e' = isEnabled e /\ isPaused e' = isPaused e.

(** [e'] differs from [e] at most in the paused flag, the sink's rate and
    the console. *)
Definition sameButPausedRateAndConsole (e e' : Engine) : Prop :=
  macOS11 e' = macOS11 e /\ logCallback e' = logCallback e
  /\ option_map (sinkSetRate 0) (renderer e') = option_map (sinkSetRate 0) (renderer e)
  /\ currentFormat e' = currentFormat e
  /\ nextPresentationTime e' = nextPresentationTime e
  /\ lastBufferPresentationTime e' = lastBufferPresentationTime e
  /\ sampleQueue e' = sampleQueue e
  /\ maxQueueSize e' = maxQueueSize e /\ isEnabled e' = isEnabled e.

(** ** The plugin side: [AVFOutput] over the engine

    The [output_v6] implementation of foo_out_avfoundation.cpp that drives
    [AVFEngine] (the variant that converts with [utils::neon_convert]).  An
    [audio_chunk] is the SDK's; the model keeps what its getters return.
    Samples handed to the engine are 32-bit floats kept as bit patterns, so
    the two narrowing conversions produce [Z]. *)

(** Modelled from the spec: the body of [AVFEngine::setQueueSize], the
    bridge method the constructor calls.  engine.h declares it, but
    engine.mm defines no such member, so its body is missing from the
    sources.  The specification's host API has [setQueueCapacity(n)], with
    the range check of the implementation object's [setQueueSize:]; the
    bridge is taken to forward to it, as every bridge method that has a
    body does. *)
Definition AVFEngine_setQueueSize (size : Z) (e : Engine) : Engine :=
  setQueueSize size e.

Module Host.
Section Output.

Variable F64 : Type.
Variable cast : F64 -> Z.
Variable fcvtn : F64 -> Z.

Record audio_chunk := mkChunk {
  get_sample_rate : Z;
  get_channels : Z;
  get_sample_count : Z;
  get_used_size : nat;
  get_data : list F64
}.

Record AVFOutput := mkOutput {
  engine : Engine;
  is_active : bool;
  is_paused : bool
}.

(** The constructor.  Its [engine.setQueueSize(3)] goes through the bridge
    method whose body is missing ([AVFEngine_setQueueSize]). *)
Definition construct (available : bool) : AVFOutput :=
  let e1 := setLogCallback true (init available) in
  let e2 := AVFEngine_setQueueSize 3 e1 in
  let (ok, e3) := enable e2 in
  mkOutput e3 (if ok then true else false) false.

(** [process_samples_v2]; [created] is the outcome of the format creation
    in the host's own [setupAudioFormat] call, [x] the outcomes inside
    [feedAudioData].  [None] stands for a conversion that runs outside the
    chunk's buffer. *)
Definition process_samples_v2 (created : bool) (x : Externals)
    (p_chunk : audio_chunk) (h : AVFOutput) : option (Z * AVFOutput) :=
  if negb (is_active h) || is_paused h then Some (0, h)
  else
    let sample_rate := get_sample_rate p_chunk in
    let channels := get_channels p_chunk in
    let sample_count := get_sample_count p_chunk in
    if (sample_count =? 0) || (channels =? 0) then Some (0, h)
    else
      let e1 := snd (setupAudioFormat created sample_rate channels (engine h)) in
      let float_data := replicate (get_used_size p_chunk) 0 in
      converted ← Neon.neon_convert F64 Z cast fcvtn (get_data p_chunk)
                    float_data (get_used_size p_chunk);
      let (processed_samples, e2) :=
        feedAudioData x converted sample_rate channels sample_count e1 in
      Some (processed_samples, mkOutput e2 (is_active h) (is_paused h)).

(** [is_progressing] *)
Definition is_progressing (h : AVFOutput) : bool :=
  isEnabled (engine h) && negb (isPaused (engine h)).

(** [update]: the value stored in [p_ready]. *)
Definition update (h : AVFOutput) : bool :=
  isEnabled (engine h) && isReadyForMoreMediaData (engine h).

(** [pause] *)
Definition pause (p_state : bool) (h : AVFOutput) : AVFOutput :=
  let e := if p_state then pause (engine h) else resume (engine h) in
  mkOutput e (is_active h) p_state.

(** [flush] *)
Definition flush (h : AVFOutput) : AVFOutput :=
  mkOutput (flush (engine h)) (is_active h) (is_paused h).

(** [force_play] *)
Definition force_play (h : AVFOutput) : AVFOutput :=
  mkOutput (snd (enable (disable (engine h)))) (is_active h) false.

(** The destructor. *)
Definition destroy (h : AVFOutput) : AVFOutput :=
  if is_active h then mkOutput (disable (engine h)) (is_active h) (is_paused h)
  else h.

(** The renderer's media-data block, registered by [enable]: it runs
    [renderFromQueue] on the engine. *)
Definition render_callback (h : AVFOutput) : AVFOutput :=
  mkOutput (renderFromQueue (engine h)) (is_active h) (is_paused h).

(** The calls foobar2000 and the renderer make on an output. *)
Inductive Call :=
| CallProcess (created : bool) (x : Externals) (p_chunk : audio_chunk)
| CallPause (p_state : bool)
| CallFlush
| CallForcePlay
| CallRender.

Definition call (c : Call) (h : AVFOutput) : option AVFOutput :=
  match c with
  | CallProcess created x p_chunk => snd <$> process_samples_v2 created x p_chunk h
  | CallPause p_state => Some (pause p_state h)
  | CallFlush => Some (flush h)
  | CallForcePlay => Some (force_play h)
  | CallRender => Some (render_callback h)
  end.

Fixpoint calls (cs : list Call) (h : AVFOutput) : option AVFOutput :=
  match cs with
  | [] => Some h
  | c :: rest => h1 ← call c h; calls rest h1
  end.

End Output.
End Host.

(** ** The first plugin variant: [noopt_deinterleave]

    The chunk is given by what [get_channels], [get_sample_count] and
    [get_data] return.  [resize] value-initialises new elements, hence the
    zero sample. *)

Module Legacy.
Section Deinterleave.
Local Open Scope nat_scope.

Variables F64 F32 : Type.
Variable cast : F64 -> F32.
Variable zero32 : F32.

(** The inner [for (i = 0; i < sample_count; ++i)] loop over one channel. *)
Fixpoint fill_channel (fuel i sample_count channels ch : nat)
    (data : list F64) (row : list F32) : option (list F32) :=
  if i <? sample_count then
    match fuel with
    | O => None
    | S fuel' =>
        x ← data !! (i * channels + ch);
        row' ← Neon.store F32 row i (cast x);
        fill_channel fuel' (S i) sample_count channels ch data row'
    end
  else Some row.

(** The outer [for (ch = 0; ch < channels; ++ch)] loop. *)
Fixpoint channel_loop (fuel ch channels sample_count : nat)
    (data : list F64) (channel_data : list (list F32))
    : option (list (list F32)) :=
  if ch <? channels then
    match fuel with
    | O => None
    | S fuel' =>
        row ← channel_data !! ch;
        let resized := resize sample_count zero32 row in
        filled ← fill_channel sample_count 0 sample_count channels ch data resized;
        channel_loop fuel' (S ch) channels sample_count data
          (<[ch:=filled]> channel_data)
    end
  else Some channel_data.

Definition noopt_deinterleave (channels sample_count : nat) (data : list F64)
    : option (list (list F32)) :=
  channel_loop channels 0 channels sample_count data (replicate channels []).

End Deinterleave.
End Legacy.

(** ** Vocabulary of the further statements *)

(** What holds of the engine between calls. *)
Definition consistent (e : Engine) : Prop :=
  (isPaused e = true -> isEnabled e = true)
  /\ (isEnabled e = true ->
      macOS11 e = true
      /\ exists k, renderer e = Some k
                   /\ rate k = (if isPaused e then 0 else 1)
                   /\ requestingMediaData k = true)
  /\ (isEnabled e = false -> sampleQueue e = []).

(** The framework calls up to the block buffer succeed and
    [CMSampleBufferCreateReady] does not. *)
Definition sampleBufferFails (x : Externals) : Prop :=
  formatCreated x = true /\ allocated x = true /\ blockBufferStatus x = noErr
  /\ (sampleBufferStatus x <> noErr \/ sampleBufferReturned x = false).

Definition sampleBufferCreated (x : Externals) : Prop :=
  sampleBufferStatus x = noErr /\ sampleBufferReturned x = true.

(** [e'] differs from [e] at most in the console. *)
Definition sameButConsole (e e' : Engine) : Prop :=
  setConsole (console e) e' = e.

(** A running engine: enabled, not paused, with its sink. *)
Definition running (e : Engine) : Prop :=
  isEnabled e = true /\ isPaused e = false /\ macOS11 e = true
  /\ hasSink e = true.

(** The plugin's flags agree with the engine's, and the engine is enabled
    exactly when it could be enabled at all. *)
Definition flagsMirrored (h : Host.AVFOutput) : Prop :=
  Host.is_active h = isEnabled (Host.engine h)
  /\ Host.is_active h = hasSink (Host.engine h) && macOS11 (Host.engine h)
  /\ (Host.is_active h = true ->
      Host.is_paused h = isPaused (Host.engine h)).

(** A chunk the plugin does not skip, with its samples inside its buffer. *)
Definition playableChunk {F64 : Type} (p : Host.audio_chunk F64) : Prop :=
  Host.get_sample_count F64 p <> 0 /\ Host.get_channels F64 p <> 0
  /\ (0 < Host.get_used_size F64 p <= length (Host.get_data F64 p))%nat.

(** The deinterleaved channel [ch] of [data]: one sample per frame. *)
Definition channelOf {F64 F32 : Type} (cast : F64 -> F32)
    (channels sample_count : nat) (data : list F64) (ch : nat)
    (row : list F32) : Prop :=
  length row = sample_count
  /\ forall i : nat, (i < sample_count)%nat ->
       row !! i = cast <$> data !! (i * channels + ch)%nat.

(** One unit of [frames] stereo frames that fails at the last framework call. *)
Definition failingCall (frames sampleRate status : Z) : FeedCall :=
  mkFeedCall (mkExternals true true noErr status true)
    (stereoSilence (Z.to_nat frames)) sampleRate 2 frames.

(** A stereo chunk of [frames] frames of silence at 48000 Hz. *)
Definition silentChunk (frames : nat) : Host.audio_chunk spec_float :=
  Host.mkChunk spec_float 48000 2 (Z.of_nat frames) (2 * frames)
    (repeat (S754_zero false) (2 * frames)).

(** IEEE 754 binary32 encoding of a value already rounded to binary32. *)
Definition bits_of_float (x : spec_float) : Z :=
  match x with
  | S754_zero s => if s then 2 ^ 31 else 0
  | S754_infinity s => (if s then 2 ^ 31 else 0) + 0x7F800000
  | S754_nan => 0x7FC00000
  | S754_finite s m e =>
      (if s then 2 ^ 31 else 0)
      + (if Z.pos m <? 2 ^ 23 then Z.pos m
         else (e + 150) * 2 ^ 23 + (Z.pos m - 2 ^ 23))
  end.

(** The cast [(float)x] as the bit pattern it produces. *)
Definition bits_of_double (x : spec_float) : Z :=
  bits_of_float (float_of_double x).

(** ** Vocabulary of the timeline statements *)

(** The accepted calls of a session, in call order. *)
Definition acceptedb (r : FeedResult) : bool := negb (frAccepted r =? 0).

Definition acceptedUnits (ops : list Op) (e : Engine) : list FeedResult :=
  List.filter acceptedb (session ops e).





(** The two values [timestampMutex] guards. *)
Definition timeline (e : Engine) : CMTime * CMTime :=
  (nextPresentationTime e, lastBufferPresentationTime e).

(** *** [feedAudioData] by critical sections

    [feedAudioData] holds [timestampMutex] for one block: the read of
    [nextPresentationTime], its advance and the update of
    [lastBufferPresentationTime].  [enable] and [flush] hold the same mutex
    for their reset.  A call of another thread can therefore run before
    the block or after it, not inside it.  [feedBefore] is the call up to
    the block, [timestampBlock] the block, [feedAfter] the rest. *)

(** The block under [timestampMutex] in [feedAudioData]; returns
    [currentPresentationTime]. *)
Definition timestampBlock (frameDuration : CMTime) (e : Engine)
    : CMTime * Engine :=
  let currentPresentationTime := nextPresentationTime e in
  (currentPresentationTime,
   setTimeline (CMTimeAdd (nextPresentationTime e) frameDuration)
     currentPresentationTime e).

(** [feedAudioData] from its entry to the timestamp block: the value
    returned early with the engine then, or the engine that reaches the
    block. *)
Definition feedBefore (c : FeedCall) (e : Engine) : (Z * Engine) + Engine :=
  let x := fcExternals c in
  if negb (isEnabled e) || isPaused e then inl (0, e)
  else if (Z.of_nat (length (fcData c)) =? 0) || (fcFrameCount c =? 0)
          || (fcChannels c =? 0) then
    inl (0, logMessage msgInvalidParams [] e)
  else
    let (formatOk, e1) :=
      setupAudioFormat (formatCreated x) (fcSampleRate c) (fcChannels c) e in
    if negb formatOk then inl (0, e1)
    else if macOS11 e1 then
      if Z.of_nat (length (sampleQueue e1)) >=? maxQueueSize e1 then inl (0, e1)
      else if negb (allocated x) then inl (0, logMessage msgAllocFailed [] e1)
      else if negb (blockBufferStatus x =? noErr) then
        inl (0, logMessage msgBlockBufferFailed [to_int32 (blockBufferStatus x)] e1)
      else inr e1
    else inl (0, logMessage msgNotAvailable [] e1).

(** [feedAudioData] after the timestamp block: [CMSampleBufferCreateReady]
    and the push under [sampleQueueMutex]. *)
Definition feedAfter (c : FeedCall) (e2 : Engine) : Z * Engine :=
  let x := fcExternals c in
  let sampleSize := to_uint64 (4 * fcChannels c) in
  let dataSize := to_uint64 (4 * Z.of_nat (length (fcData c))) in
  let sampleBuffer :=
    mkSampleBuffer (fcData c) dataSize (currentFormat e2)
      (to_int64 (fcFrameCount c)) (callDuration c) kCMTimeInvalid kCMTimeInvalid
      sampleSize in
  if (sampleBufferStatus x =? noErr) && sampleBufferReturned x then
    (fcFrameCount c, setSampleQueue (sampleQueue e2 ++ [sampleBuffer]) e2)
  else
    (0, logMessage msgSampleBufferFailed [to_int32 (sampleBufferStatus x)] e2).

(** One entry of a schedule: a call run whole, or a feed call with the
    calls other threads complete before its timestamp block and after it.
    Of the calls of other threads only [enable] and [flush] write the
    timeline, each in one block under the mutex, so where in their course
    the block lies makes no difference to the timeline. *)
Inductive Scheduled :=
| Whole (o : Op)
| Split (c : FeedCall) (beforeBlock afterBlock : list Op).

Definition runScheduled (s : Scheduled) (e : Engine) : Engine :=
  match s with
  | Whole o => step o e
  | Split c beforeBlock afterBlock =>
      match feedBefore c e with
      | inl r => snd r
      | inr e1 =>
          let e2 := snd (timestampBlock (callDuration c) (run beforeBlock e1)) in
          snd (feedAfter c (run afterBlock e2))
      end
  end.

Definition schedule (l : list Scheduled) (e : Engine) : Engine :=
  fold_left (fun acc s => runScheduled s acc) l e.

(** What happens to the timeline under the mutex: a reset, or the block of
    a feed call with the value it read, the duration it added and the two
    values it left. *)
Inductive TimelineEvent :=
| EvReset
| EvStamp (read frameDuration next last : CMTime).

(** The call runs the reset block: an [enable] that enables, or a [flush]
    of an enabled engine. *)
Definition resetsTimeline (o : Op) (e : Engine) : bool :=
  match o with
  | OpEnable => negb (isEnabled e) && fst (enable e)
  | OpFlush => isEnabled e && macOS11 e
  | _ => false
  end.

Definition stampEvent (c : FeedCall) (e : Engine) : TimelineEvent :=
  let (currentPresentationTime, e2) := timestampBlock (callDuration c) e in
  EvStamp currentPresentationTime (callDuration c)
    (nextPresentationTime e2) (lastBufferPresentationTime e2).

Definition opEvents (o : Op) (e : Engine) : list TimelineEvent :=
  match o with
  | OpFeed c =>
      match feedBefore c e with
      | inl _ => []
      | inr e1 => [stampEvent c e1]
      end
  | _ => if resetsTimeline o e then [EvReset] else []
  end.

Fixpoint opsEvents (ops : list Op) (e : Engine) : list TimelineEvent :=
  match ops with
  | [] => []
  | o :: rest => opEvents o e ++ opsEvents rest (step o e)
  end.

Definition scheduledEvents (s : Scheduled) (e : Engine) : list TimelineEvent :=
  match s with
  | Whole o => opEvents o e
  | Split c beforeBlock afterBlock =>
      match feedBefore c e with
      | inl _ => []
      | inr e1 =>
          let e1' := run beforeBlock e1 in
          opsEvents beforeBlock e1
          ++ stampEvent c e1'
             :: opsEvents afterBlock (snd (timestampBlock (callDuration c) e1'))
      end
  end.

(** The timeline events of a schedule, in the order the mutex was taken. *)
Fixpoint scheduleEvents (l : list Scheduled) (e : Engine) : list TimelineEvent :=
  match l with
  | [] => []
  | s :: rest => scheduledEvents s e ++ scheduleEvents rest (runScheduled s e)
  end.

(** The timeline an event leaves. *)
Definition applyEvent (tl : CMTime * CMTime) (ev : TimelineEvent)
    : CMTime * CMTime :=
  match ev with
  | EvReset => (kCMTimeZero, kCMTimeInvalid)
  | EvStamp _ _ next last => (next, last)
  end.

(** From the timeline [tl] on, every block read the value its predecessor
    (block or reset) left, advanced it by its duration and recorded what it
    had read: no block saw a reset between its three accesses. *)
Fixpoint serialized (tl : CMTime * CMTime) (evs : list TimelineEvent) : Prop :=
  match evs with
  | [] => True
  | ev :: rest =>
      match ev with
      | EvReset => True
      | EvStamp read frameDuration next last =>
          read = fst tl /\ next = CMTimeAdd read frameDuration /\ last = read
      end
      /\ serialized (applyEvent tl ev) rest
  end.



(** Two units of 10 frames with a call in between that fails at
    [CMSampleBufferCreateReady]. *)
Definition gapScenario : list Op :=
  [OpFeed (stereoCall 10 48000); OpFeed (failingCall 10 48000 (-12731));
   OpFeed (stereoCall 10 48000)].

(** * Properties *)

(** ** Case analysis of [feedAudioData] *)

Ltac break_if :=
  match goal with
  | |- context [if ?b then _ else _] => destruct b eqn:?
  | H : context [if ?b then _ else _] |- _ => destruct b eqn:?
  end.

Ltac gate_open :=
  match goal with
  | H : negb ?a || ?b = false |- _ =>
      destruct a, b; simpl in H; try discriminate H
  end.

Ltac unfold_feed :=
  unfold feed, feedAudioData, setupAudioFormat, logMessage, setTimeline,
    setSampleQueue, setCurrentFormat, setConsole in *; simpl in *.

Lemma feed_frame c e :
  let e' := snd (feed c e) in
  macOS11 e' = macOS11 e /\ logCallback e' = logCallback e
  /\ renderer e' = renderer e /\ maxQueueSize e' = maxQueueSize e
  /\ isEnabled e' = isEnabled e /\ isPaused e' = isPaused e.
Proof.
  destruct e, c; unfold_feed.
  repeat (break_if; simpl in *); repeat split; reflexivity.
Qed.

Lemma feed_accepted c e :
  fst (feed c e) <> 0 ->
  fst (feed c e) = fcFrameCount c
  /\ isEnabled e = true /\ isPaused e = false
  /\ queueLength e < maxQueueSize e
  /\ nextPresentationTime (snd (feed c e))
     = CMTimeAdd (nextPresentationTime e) (callDuration c)
  /\ lastBufferPresentationTime (snd (feed c e)) = nextPresentationTime e
  /\ exists u,
       sampleQueue (snd (feed c e)) = sampleQueue e ++ [u]
       /\ sbPresentationTimeStamp u = kCMTimeInvalid
       /\ sbDuration u = callDuration c.
Proof.
  destruct e, c; unfold queueLength, callDuration; unfold_feed.
  repeat (break_if; simpl in *); intros H; try congruence;
    (repeat split; try reflexivity; try lia; eauto); gate_open; reflexivity.
Qed.

Lemma feed_rejected c e :
  fst (feed c e) = 0 -> sampleQueue (snd (feed c e)) = sampleQueue e.
Proof.
  destruct e, c; unfold_feed.
  repeat (break_if; simpl in *); intros H; try reflexivity.
  all: exfalso; lia.
Qed.

Lemma feed_full c e :
  queueLength e >= maxQueueSize e ->
  fst (feed c e) = 0 /\ sampleQueue (snd (feed c e)) = sampleQueue e.
Proof.
  intros Hfull.
  assert (Hz : fst (feed c e) = 0).
  { destruct (Z.eq_dec (fst (feed c e)) 0) as [|Hne]; [assumption|].
    apply feed_accepted in Hne. lia. }
  split; [assumption | apply feed_rejected; assumption].
Qed.

Lemma requestedFormat_fields sr ch :
  fmtSampleRate (requestedFormat sr ch) = sr
  /\ fmtChannelCount (requestedFormat sr ch) = ch.
Proof. unfold requestedFormat. break_if; simpl; split; reflexivity. Qed.

Lemma feed_accepts c e :
  acceptableCall c ->
  isEnabled e = true -> isPaused e = false -> macOS11 e = true ->
  queueLength e < maxQueueSize e ->
  fst (feed c e) = fcFrameCount c
  /\ exists u, sampleQueue (snd (feed c e)) = sampleQueue e ++ [u].
Proof.
  intros (Hd & Hf & Hc & Hx1 & Hx2 & Hx3 & Hx4 & Hx5) He Hp Ho Hq.
  destruct e, c as [x d sr ch fc]; destruct x.
  unfold queueLength in *; simpl in *; subst.
  unfold_feed.
  assert (Hlen : (Z.of_nat (length d) =? 0) = false).
  { destruct d; [congruence | simpl; lia]. }
  rewrite Hlen.
  assert (Hfc : (fc =? 0) = false) by lia.
  assert (Hch : (ch =? 0) = false) by lia.
  rewrite Hfc, Hch. simpl.
  repeat (break_if; simpl in *); try lia; eauto.
Qed.

(** ** The state gate and the input validation of [feedAudioData] *)

(** C10: whenever the engine is disabled or paused, [feedAudioData] returns
    0 at once, whatever its arguments and whatever the framework calls
    would have answered; the engine after the call is the engine before
    it, so no format, timeline or queue field is touched and nothing is
    logged. *)
Theorem feed_gate_closed (x : Externals) (audioData : list Z)
    (sampleRate channels frameCount : Z) (e : Engine) :
  isEnabled e = false \/ isPaused e = true ->
  feedAudioData x audioData sampleRate channels frameCount e = (0, e).
Proof.
  intros Hgate. unfold feedAudioData.
  destruct Hgate as [H | H]; rewrite H; simpl; [reflexivity |].
  rewrite orb_true_r. reflexivity.
Qed.

Lemma feed_gate_closed_witness :
  feedAudioData externalsOk (stereoSilence 100) 48000 2 100 (init true)
  = (0, init true)
  /\ feedAudioData externalsOk (stereoSilence 100) 48000 2 100 (pause hostEngine)
     = (0, pause hostEngine).
Proof.
  split.
  - apply feed_gate_closed. left. reflexivity.
  - apply feed_gate_closed. right. reflexivity.
Defined.

(** C6: on an enabled, non-paused engine a feed whose sample buffer is
    empty, whose frame count is zero or whose channel count is zero returns
    0, logs the rejection, and leaves the queue, both timeline fields and
    the current format (in fact every field but the console) as they
    were. *)
Theorem feed_invalid_input (x : Externals) (audioData : list Z)
    (sampleRate channels frameCount : Z) (e : Engine) :
  isEnabled e = true -> isPaused e = false ->
  audioData = [] \/ frameCount = 0 \/ channels = 0 ->
  let r := feedAudioData x audioData sampleRate channels frameCount e in
  fst r = 0
  /\ snd r = logMessage msgInvalidParams [] e
  /\ console (snd r) = console e ++ [mkLogLine (logCallback e) msgInvalidParams []]
  /\ sampleQueue (snd r) = sampleQueue e
  /\ nextPresentationTime (snd r) = nextPresentationTime e
  /\ lastBufferPresentationTime (snd r) = lastBufferPresentationTime e
  /\ currentFormat (snd r) = currentFormat e.
Proof.
  intros He Hp Hbad r.
  assert (Hr : r = (0, logMessage msgInvalidParams [] e)).
  { subst r. unfold feedAudioData. rewrite He, Hp. simpl.
    assert (Hc : (Z.of_nat (length audioData) =? 0) || (frameCount =? 0)
                 || (channels =? 0) = true).
    { destruct Hbad as [-> | [-> | ->]]; simpl;
        rewrite ?orb_true_r; reflexivity. }
    rewrite Hc. reflexivity. }
  rewrite Hr. simpl. repeat split; reflexivity.
Qed.

Lemma feed_invalid_input_witness :
  let r := feedAudioData externalsOk [] 48000 2 100 hostEngine in
  fst r = 0
  /\ snd r = logMessage msgInvalidParams [] hostEngine
  /\ console (snd r)
     = console hostEngine ++ [mkLogLine (logCallback hostEngine) msgInvalidParams []]
  /\ sampleQueue (snd r) = sampleQueue hostEngine
  /\ nextPresentationTime (snd r) = nextPresentationTime hostEngine
  /\ lastBufferPresentationTime (snd r) = lastBufferPresentationTime hostEngine
  /\ currentFormat (snd r) = currentFormat hostEngine.
Proof.
  apply (feed_invalid_input externalsOk [] 48000 2 100 hostEngine).
  - reflexivity.
  - reflexivity.
  - left. reflexivity.
Defined.

(** ** Queue capacity *)

(** C5: [setQueueSize:] with a size from 1 to 10 makes that size the
    capacity; with any other size (0 included) it keeps the previous
    capacity and logs the warning that names both values.  Either way
    nothing but the capacity and the console changes. *)
Theorem setQueueSize_range (n : Z) (e : Engine) :
  (1 <= n <= 10 ->
     maxQueueSize (setQueueSize n e) = n
     /\ console (setQueueSize n e)
        = console e ++ [mkLogLine (logCallback e) msgQueueSizeSet [n]])
  /\ (~ 1 <= n <= 10 ->
     maxQueueSize (setQueueSize n e) = maxQueueSize e
     /\ console (setQueueSize n e)
        = console e
          ++ [mkLogLine (logCallback e) msgQueueSizeInvalid [n; maxQueueSize e]])
  /\ sameButCapacityAndConsole e (setQueueSize n e).
Proof.
  unfold setQueueSize, sameButCapacityAndConsole.
  destruct ((0 <? n) && (n <=? 10)) eqn:Hr; simpl.
  - repeat split; try reflexivity; intros; lia.
  - repeat split; try reflexivity; intros; lia.
Qed.

(** ** Format negotiation *)

(** C7: when a call of [setupAudioFormat:channels:] has succeeded, a second
    call with the same sample rate and channel count returns true through
    the comparison at the top of the method: it builds no format (the
    answer does not depend on whether AVFoundation would create one),
    leaves [currentFormat] and the sink as they are, and logs nothing;
    the engine is unchanged. *)
Theorem setupAudioFormat_idempotent (created1 created2 : bool)
    (sampleRate channels : Z) (e : Engine) :
  fst (setupAudioFormat created1 sampleRate channels e) = true ->
  let e1 := snd (setupAudioFormat created1 sampleRate channels e) in
  setupAudioFormat created2 sampleRate channels e1 = (true, e1)
  /\ currentFormat (snd (setupAudioFormat created2 sampleRate channels e1))
     = currentFormat e1
  /\ renderer (snd (setupAudioFormat created2 sampleRate channels e1))
     = renderer e1.
Proof.
  intros Hok e1.
  assert (Hfast : setupAudioFormat created2 sampleRate channels e1 = (true, e1)).
  { subst e1. revert Hok. unfold setupAudioFormat.
    destruct (macOS11 e) eqn:Hos; simpl; [| discriminate].
    destruct ((sampleRate =? formatSampleRate (currentFormat e))
              && (channels =? formatChannelCount (currentFormat e))) eqn:Hsame;
      simpl.
    - intros _. rewrite Hos, Hsame. reflexivity.
    - destruct created1; simpl; [| discriminate].
      intros _. rewrite Hos.
      destruct (requestedFormat_fields sampleRate channels) as [-> ->].
      rewrite !Z.eqb_refl. reflexivity. }
  rewrite Hfast. repeat split; reflexivity.
Qed.

Lemma setupAudioFormat_idempotent_witness :
  let e1 := snd (setupAudioFormat true 48000 6 (init true)) in
  setupAudioFormat false 48000 6 e1 = (true, e1)
  /\ currentFormat (snd (setupAudioFormat false 48000 6 e1)) = currentFormat e1
  /\ renderer (snd (setupAudioFormat false 48000 6 e1)) = renderer e1.
Proof.
  apply (setupAudioFormat_idempotent true false 48000 6 (init true)).
  reflexivity.
Defined.

Lemma setQueueSize_range_witness :
  maxQueueSize (setQueueSize 3 (init true)) = 3
  /\ maxQueueSize (setQueueSize 0 (init true)) = 8
  /\ maxQueueSize (setQueueSize 11 (init true)) = 8.
Proof.
  split; [| split].
  - apply (setQueueSize_range 3 (init true)). lia.
  - apply (setQueueSize_range 0 (init true)). lia.
  - apply (setQueueSize_range 11 (init true)). lia.
Defined.

(** ** Pause and resume *)

Lemma render_iter (n : nat) (e : Engine) :
  isEnabled e = true -> isPaused e = false -> macOS11 e = true ->
  hasSink e = true ->
  let r := Nat.iter n renderFromQueue e in
  sampleQueue r = drop n (sampleQueue e)
  /\ delivered r = delivered e ++ take n (sampleQueue e)
  /\ isEnabled r = true /\ isPaused r = false /\ macOS11 r = true
  /\ hasSink r = true.
Proof.
  intros He Hp Ho Hk. induction n as [| n IH]; simpl.
  - rewrite drop_0, take_0, app_nil_r. repeat split; assumption.
  - destruct IH as (Hq & Hd & He' & Hp' & Ho' & Hk').
    set (r := Nat.iter n renderFromQueue e) in *.
    unfold renderFromQueue. rewrite He', Hp'. simpl.
    destruct (sampleQueue r) as [| u rest] eqn:Hr.
    + assert (Hlen : (length (sampleQueue e) <= n)%nat).
      { apply (f_equal length) in Hq. rewrite length_drop in Hq.
        simpl in Hq. lia. }
      rewrite (drop_ge _ (S n)) by lia.
      rewrite (take_ge _ (S n)) by lia.
      rewrite (take_ge _ n) in Hd by lia.
      rewrite Hr. repeat split; assumption.
    + assert (Hu : sampleQueue e !! n = Some u).
      { rewrite <- (Nat.add_0_r n), <- lookup_drop, <- Hq. reflexivity. }
      rewrite (take_S_r _ _ _ Hu), app_assoc, <- Hd.
      assert (Hrest : rest = drop (S n) (sampleQueue e)).
      { rewrite (drop_S _ _ _ Hu) in Hq. congruence. }
      unfold delivered, hasSink in *.
      destruct r as [o cb [k |] f nx la q m en pa co]; simpl in *;
        [| discriminate].
      rewrite Ho'. simpl. repeat split; try assumption; try reflexivity.
Qed.

(** C8: [pause] on an enabled engine keeps the queue as it is, unit for
    unit and in order; besides the console line it changes only the paused
    flag and the sink's rate (now 0), and while paused the render callback
    takes nothing from the queue.  After [resume], the first [n] render
    callbacks hand the sink the first [n] units that were queued when
    [pause] was called, oldest first, each exactly once, and leave the
    others queued. *)
Theorem pause_preserves_queue (e : Engine) :
  isEnabled e = true -> macOS11 e = true -> hasSink e = true ->
  sampleQueue (pause e) = sampleQueue e
  /\ isPaused (pause e) = true
  /\ sinkRate (pause e) = 0
  /\ sameButPausedRateAndConsole e (pause e)
  /\ delivered (pause e) = delivered e
  /\ renderFromQueue (pause e) = pause e
  /\ forall n : nat,
       let r := Nat.iter n renderFromQueue (resume (pause e)) in
       sampleQueue r = drop n (sampleQueue e)
       /\ delivered r = delivered e ++ take n (sampleQueue e).
Proof.
  intros He Ho Hk.
  destruct e as [o cb [k |] f nx la q m en pa co]; simpl in *;
    [| discriminate]; subst.
  do 3 (split; [reflexivity |]).
  split; [unfold sameButPausedRateAndConsole; simpl; repeat split; reflexivity |].
  do 2 (split; [reflexivity |]).
  intros n.
  pose proof (render_iter n
    (resume (pause (mkEngine true cb (Some k) f nx la q m true pa co)))
    eq_refl eq_refl eq_refl eq_refl) as H.
  simpl in H. destruct H as (Hq & Hd & _). split; assumption.
Qed.

Lemma pause_preserves_queue_witness :
  let e := snd (feedAll (repeat (stereoCall 100 48000) 2) hostEngine) in
  sampleQueue (pause e) = sampleQueue e
  /\ isPaused (pause e) = true
  /\ sinkRate (pause e) = 0
  /\ sameButPausedRateAndConsole e (pause e)
  /\ delivered (pause e) = delivered e
  /\ renderFromQueue (pause e) = pause e
  /\ forall n : nat,
       let r := Nat.iter n renderFromQueue (resume (pause e)) in
       sampleQueue r = drop n (sampleQueue e)
       /\ delivered r = delivered e ++ take n (sampleQueue e).
Proof.
  apply (pause_preserves_queue
           (snd (feedAll (repeat (stereoCall 100 48000) 2) hostEngine)));
    reflexivity.
Defined.

(** ** Backpressure *)

Lemma feedAll_cons c rest e :
  feedAll (c :: rest) e
  = (fst (feed c e) :: fst (feedAll rest (snd (feed c e))),
     snd (feedAll rest (snd (feed c e)))).
Proof.
  simpl. destruct (feed c e) as [n e1]. simpl.
  destruct (feedAll rest e1) as [ns e2]. reflexivity.
Qed.

(** With room for [room] more units, the first [room] calls are accepted
    and the others rejected. *)
Lemma feedAll_room (calls : list FeedCall) :
  forall (e : Engine) (room : nat),
  isEnabled e = true -> isPaused e = false -> macOS11 e = true ->
  maxQueueSize e = queueLength e + Z.of_nat room ->
  Forall acceptableCall calls ->
  fst (feedAll calls e)
  = (fcFrameCount <$> take room calls) ++ replicate (length calls - room) 0
  /\ length (sampleQueue (snd (feedAll calls e)))
     = (length (sampleQueue e) + Nat.min room (length calls))%nat
  /\ sampleQueue (snd (feedAll calls e))
     = sampleQueue (snd (feedAll (take room calls) e)).
Proof.
  induction calls as [| c rest IH]; intros e room He Hp Ho Hcap Hall.
  - rewrite take_nil. simpl. rewrite Nat.min_0_r. repeat split; lia.
  - apply Forall_cons in Hall. destruct Hall as [Hc Hrest].
    rewrite feedAll_cons.
    destruct (feed_frame c e) as (Fo & _ & _ & Fm & Fe & Fp).
    destruct room as [| room].
    + rewrite !take_0. simpl.
      destruct (feed_full c e) as [Hz Hq]; [lia |].
      destruct (IH (snd (feed c e)) 0%nat) as (Hr & Hl & Hs);
        try congruence.
      { unfold queueLength in *. rewrite Fm, Hq. lia. }
      rewrite take_0 in Hr, Hs. simpl in Hr, Hs.
      rewrite Hz, Hr, Hl, Hs, Hq, Nat.sub_0_r.
      repeat split; reflexivity || lia.
    + destruct (feed_accepts c e Hc He Hp Ho) as [Hn [u Hq]]; [lia |].
      destruct (IH (snd (feed c e)) room) as (Hr & Hl & Hs);
        try congruence.
      { unfold queueLength in *. rewrite Fm, Hq, length_app. simpl. lia. }
      change (take (S room) (c :: rest)) with (c :: take room rest).
      rewrite feedAll_cons. simpl.
      rewrite Hn, Hr, Hl, Hs, Hq, length_app. simpl.
      repeat split; reflexivity || lia.
Qed.

(** C3: on an enabled, non-paused engine with an empty queue and capacity
    [cap], feeding acceptable calls with nothing consumed in between
    returns the full frame count for each of the first [cap] calls and 0
    for every later one; the rejected calls leave the queue exactly as the
    accepted ones built it, and when more than [cap] calls were made
    [pendingBufferCount] is [cap].  With capacity 3 and five units of 100
    frames at 48000 Hz this gives [100; 100; 100; 0; 0] and 3 pending. *)
Theorem backpressure (calls : list FeedCall) (e : Engine) (cap : nat) :
  isEnabled e = true -> isPaused e = false -> macOS11 e = true ->
  sampleQueue e = [] -> maxQueueSize e = Z.of_nat cap -> Z.of_nat cap < 2 ^ 32 ->
  Forall acceptableCall calls ->
  fst (feedAll calls e)
  = (fcFrameCount <$> take cap calls) ++ replicate (length calls - cap) 0
  /\ sampleQueue (snd (feedAll calls e))
     = sampleQueue (snd (feedAll (take cap calls) e))
  /\ ((cap < length calls)%nat ->
      pendingBufferCount (snd (feedAll calls e)) = Z.of_nat cap).
Proof.
  intros He Hp Ho Hq Hcap Hrange Hall.
  destruct (feedAll_room calls e cap He Hp Ho) as (Hr & Hl & Hs);
    [unfold queueLength; rewrite Hq; simpl; lia | assumption |].
  split; [assumption |]. split; [assumption |].
  intros Hmore. unfold pendingBufferCount, to_uint32.
  rewrite Hl, Hq. simpl. rewrite Nat.min_l by lia.
  apply Z.mod_small. lia.
Qed.

Lemma backpressure_witness :
  fst (feedAll (repeat (stereoCall 100 48000) 5) hostEngine)
  = [100; 100; 100; 0; 0]
  /\ pendingBufferCount (snd (feedAll (repeat (stereoCall 100 48000) 5) hostEngine))
     = 3.
Proof.
  assert (Hacc : Forall acceptableCall (repeat (stereoCall 100 48000) 5)).
  { assert (Hone : acceptableCall (stereoCall 100 48000)).
    { unfold acceptableCall, externalsSucceed.
      split; [intros H; vm_compute in H; discriminate H |].
      simpl. repeat split; reflexivity || lia. }
    simpl. repeat (apply List.Forall_cons; [exact Hone |]).
    apply List.Forall_nil. }
  destruct (backpressure (repeat (stereoCall 100 48000) 5) hostEngine 3
              eq_refl eq_refl eq_refl eq_refl eq_refl eq_refl Hacc)
    as (Hr & _ & Hp).
  split.
  - exact Hr.
  - apply Hp. simpl. lia.
Defined.

(** ** The queue bound *)

Lemma feed_keeps_bound c e :
  0 <= queueLength e <= maxQueueSize e ->
  0 <= queueLength (snd (feed c e)) <= maxQueueSize (snd (feed c e)).
Proof.
  intros Hinv.
  destruct (feed_frame c e) as (_ & _ & _ & Fm & _ & _). rewrite Fm.
  destruct (Z.eq_dec (fst (feed c e)) 0) as [Hz | Hnz].
  - unfold queueLength in *. rewrite (feed_rejected c e Hz). exact Hinv.
  - destruct (feed_accepted c e Hnz) as (_ & _ & _ & Hlt & _ & _ & u & Hq & _).
    unfold queueLength in *. rewrite Hq, length_app. simpl. lia.
Qed.

Lemma step_keeps_bound o e :
  shrinksBelowQueue o e = false ->
  0 <= queueLength e <= maxQueueSize e ->
  0 <= queueLength (step o e) <= maxQueueSize (step o e).
Proof.
  intros Hshrink Hinv.
  destruct o as [n | cb | created sr ch | | | | | | c |];
    try (apply feed_keeps_bound; exact Hinv);
    destruct e as [o cb' k f nx la q m en pa co];
    simpl in *; unfold queueLength in *; simpl in *.
  - unfold setQueueSize. simpl.
    destruct ((0 <? n) && (n <=? 10)) eqn:Hr; simpl in *; lia.
  - exact Hinv.
  - unfold setupAudioFormat. repeat (break_if; simpl); exact Hinv.
  - unfold enable. simpl. destruct en; simpl; [exact Hinv |].
    destruct k; simpl; [| exact Hinv].
    destruct o; simpl; [lia | exact Hinv].
  - unfold disable. simpl. destruct en; simpl; [| exact Hinv].
    destruct o; simpl; lia.
  - unfold pause. simpl. destruct en; simpl; [| exact Hinv].
    destruct o; simpl; exact Hinv.
  - unfold resume. simpl. destruct en, pa; simpl; try exact Hinv.
    destruct o; simpl; exact Hinv.
  - unfold renderFromQueue. simpl. destruct en, pa; simpl; try exact Hinv.
    destruct q as [| u rest]; simpl in *; [exact Hinv |].
    destruct o; simpl; lia.
  - unfold flush. simpl. destruct en; simpl; [| exact Hinv].
    destruct o; simpl; exact Hinv.
Qed.

Lemma run_keeps_bound (ops : list Op) :
  forall e : Engine,
  neverShrinksBelowQueue ops e = true ->
  0 <= queueLength e <= maxQueueSize e ->
  0 <= queueLength (run ops e) <= maxQueueSize (run ops e).
Proof.
  induction ops as [| o rest IH]; intros e Hns Hinv; simpl in *.
  - exact Hinv.
  - apply andb_true_iff in Hns. destruct Hns as [Ho Hrest].
    apply negb_true_iff in Ho.
    apply IH; [exact Hrest | apply step_keeps_bound; assumption].
Qed.

(** C4, as the code has it: from a fresh engine, after any sequence of
    calls (setQueueSize, setLogCallback, setupAudioFormat, enable, disable,
    pause, resume, the render callback, feed, flush) in which no
    [setQueueSize:] lowers the capacity below the number of units queued at
    that moment, the queue holds between 0 and [maxQueueSize] units; and in
    every such state a feed that finds the queue at or above capacity
    returns 0 and leaves the queue as it was. *)
Theorem queue_bound (available : bool) (ops : list Op) :
  neverShrinksBelowQueue ops (init available) = true ->
  let e := run ops (init available) in
  0 <= queueLength e <= maxQueueSize e
  /\ forall c : FeedCall,
       queueLength e >= maxQueueSize e ->
       fst (feed c e) = 0 /\ sampleQueue (snd (feed c e)) = sampleQueue e.
Proof.
  intros Hns e. split.
  - apply run_keeps_bound; [exact Hns |].
    destruct available; unfold queueLength; simpl; lia.
  - intros c Hfull. apply feed_full. exact Hfull.
Qed.

Lemma queue_bound_witness :
  let e := run (OpSetQueueSize 3 :: OpEnable
                :: repeat (OpFeed (stereoCall 100 48000)) 5
                ++ [OpRenderFromQueue; OpSetQueueSize 2]) (init true) in
  0 <= queueLength e <= maxQueueSize e
  /\ forall c : FeedCall,
       queueLength e >= maxQueueSize e ->
       fst (feed c e) = 0 /\ sampleQueue (snd (feed c e)) = sampleQueue e.
Proof.
  apply (queue_bound true
           (OpSetQueueSize 3 :: OpEnable
            :: repeat (OpFeed (stereoCall 100 48000)) 5
            ++ [OpRenderFromQueue; OpSetQueueSize 2])).
  vm_compute. reflexivity.
Defined.

(** The bound of C4 as stated fails: five units are accepted under the
    default capacity of 8, then [setQueueSize:3] leaves them queued. *)
Lemma queue_bound_counterexample :
  queueLength (run shrinkScenario (init true)) = 5
  /\ maxQueueSize (run shrinkScenario (init true)) = 3
  /\ ~ (0 <= queueLength (run shrinkScenario (init true))
        <= maxQueueSize (run shrinkScenario (init true))).
Proof.
  assert (Hq : queueLength (run shrinkScenario (init true)) = 5)
    by (vm_compute; reflexivity).
  assert (Hm : maxQueueSize (run shrinkScenario (init true)) = 3)
    by (vm_compute; reflexivity).
  rewrite Hq, Hm. repeat split; lia.
Qed.

(** ** Flush *)

Lemma flush_queue_unchanged (e : Engine) : sampleQueue (flush e) = sampleQueue e.
Proof.
  destruct e as [o cb k f nx la q m en pa co]. unfold flush. simpl.
  destruct en; simpl; [| reflexivity]. destruct o; reflexivity.
Qed.

(** C1, at the failing input: after [enable] and one accepted feed of 100
    frames, [flush] resets the timeline and keeps the enabled and paused
    flags, but the unit fed before is still queued: [pendingBufferCount]
    is 1 before and after [flush]. *)
Theorem flush_keeps_queued_units :
  let before := run [OpEnable; OpFeed (stereoCall 100 48000)] (init true) in
  let after := run flushScenario (init true) in
  after = flush before
  /\ pendingBufferCount before = 1
  /\ pendingBufferCount after = 1
  /\ nextPresentationTime after = kCMTimeZero
  /\ lastBufferPresentationTime after = kCMTimeInvalid
  /\ isEnabled after = isEnabled before
  /\ isPaused after = isPaused before.
Proof. vm_compute. repeat split; reflexivity. Qed.

(** ** The timeline *)









(** *** The accepted units of a session *)





(** *** The arithmetic of one step *)





(** *** The timestamp block among the calls of other threads *)













(** A [flush] that gets the mutex before the block of a feed call makes
    the call read 0; one that gets it after the block leaves the unit the
    timestamp the call read and the timeline reset. *)
Lemma flush_around_timestamp_block :
  let c := stereoCall 1000 48000 in
  let e := snd (feed c (snd (enable (init true)))) in
  scheduleEvents [Split c [OpFlush] []] e
  = [EvReset;
     EvStamp kCMTimeZero (CMTimeMake 1000 48000) (CMTimeMake 1000 48000)
       kCMTimeZero]
  /\ timeline (schedule [Split c [OpFlush] []] e)
     = (CMTimeMake 1000 48000, kCMTimeZero)
  /\ scheduleEvents [Split c [] [OpFlush]] e
     = [EvStamp (CMTimeMake 1000 48000) (CMTimeMake 1000 48000)
          (CMTimeMake 2000 48000) (CMTimeMake 1000 48000);
        EvReset]
  /\ timeline (schedule [Split c [] [OpFlush]] e)
     = (kCMTimeZero, kCMTimeInvalid).
Proof. vm_compute. repeat split; reflexivity. Qed.

(** What [serialized] rules out: a block that read its timestamp before a
    reset and advanced the timeline after it. *)
Lemma straddling_block_not_serialized :
  ~ serialized (CMTimeMake 1000 48000, kCMTimeZero)
      [EvReset;
       EvStamp (CMTimeMake 1000 48000) (CMTimeMake 1000 48000)
         (CMTimeMake 2000 48000) (CMTimeMake 1000 48000)].
Proof.
  intros H. simpl in H. destruct H as (_ & (H & _) & _). discriminate H.
Qed.




(** With a call that fails at [CMSampleBufferCreateReady] between two
    accepted ones, the second unit's timestamp is 20/48000 where the first
    unit's timestamp plus its duration is 10/48000: the failed call has
    advanced the timeline. *)
Lemma creation_failure_leaves_gap :
  let e0 := snd (enable (init true)) in
  frAccepted <$> session gapScenario e0 = [10; 0; 10]
  /\ stampOf <$> acceptedUnits gapScenario e0
     = [(kCMTimeZero, CMTimeMake 10 48000);
        (CMTimeMake 20 48000, CMTimeMake 10 48000)]
  /\ CMTimeAdd kCMTimeZero (CMTimeMake 10 48000) = CMTimeMake 10 48000
  /\ ~ gapless kCMTimeZero (stampOf <$> acceptedUnits gapScenario e0).
Proof.
  assert (Hs : stampOf <$> acceptedUnits gapScenario (snd (enable (init true)))
               = [(kCMTimeZero, CMTimeMake 10 48000);
                  (CMTimeMake 20 48000, CMTimeMake 10 48000)])
    by (vm_compute; reflexivity).
  cbv zeta. rewrite Hs.
  split; [vm_compute; reflexivity |]. split; [reflexivity |].
  split; [vm_compute; reflexivity |].
  intros (_ & H & _). vm_compute in H. discriminate H.
Qed.

(** ** The sample converter: vector loop against scalar conversion *)

Section ConvertCorrect.
Local Open Scope nat_scope.

Variables F64 F32 : Type.
Variable cast : F64 -> F32.
Variable fcvtn : F64 -> F32.

Abbreviation store := (Neon.store F32).
Abbreviation vld1q_f64 := (Neon.vld1q_f64 F64).
Abbreviation vst1q_f32 := (Neon.vst1q_f32 F32).
Abbreviation main_loop := (Neon.main_loop F64 F32 fcvtn).
Abbreviation tail_loop := (Neon.tail_loop F64 F32 cast).

Lemma store_app (pre l : list F32) (j : nat) (x : F32) :
  store (pre ++ l) (length pre + j) x = (pre ++.) <$> store l j x.
Proof.
  unfold Neon.store. rewrite length_app, insert_app_r.
  destruct (j <? length l) eqn:Hj.
  - apply Nat.ltb_lt in Hj.
    assert (H : (length pre + j <? length pre + length l) = true)
      by (apply Nat.ltb_lt; lia).
    rewrite H. reflexivity.
  - apply Nat.ltb_ge in Hj.
    assert (H : (length pre + j <? length pre + length l) = false)
      by (apply Nat.ltb_ge; lia).
    rewrite H. reflexivity.
Qed.

Lemma vst1q_app (pre l : list F32) (j : nat) (v : Neon.float32x4_t F32) :
  vst1q_f32 (pre ++ l) (length pre + j) v = (pre ++.) <$> vst1q_f32 l j v.
Proof.
  destruct v as [[[a b] c] d]. unfold Neon.vst1q_f32.
  rewrite <- !Nat.add_assoc, store_app.
  destruct (store l j a) as [l1 |]; simpl; [| reflexivity].
  rewrite store_app.
  destruct (store l1 (j + 1) b) as [l2 |]; simpl; [| reflexivity].
  rewrite store_app.
  destruct (store l2 (j + 2) c) as [l3 |]; simpl; [| reflexivity].
  apply store_app.
Qed.

Lemma vld1q_app (pre l : list F64) (j : nat) :
  vld1q_f64 (pre ++ l) (length pre + j) = vld1q_f64 l j.
Proof.
  unfold Neon.vld1q_f64.
  rewrite <- Nat.add_assoc, !lookup_app_r by lia.
  replace (length pre + j - length pre) with j by lia.
  replace (length pre + (j + 1) - length pre) with (j + 1) by lia.
  reflexivity.
Qed.

Lemma vld1q_app0 (pre l : list F64) :
  vld1q_f64 (pre ++ l) (length pre) = vld1q_f64 l 0.
Proof. rewrite <- (vld1q_app pre l 0), Nat.add_0_r. reflexivity. Qed.

Lemma store_app0 (pre l : list F32) (x : F32) :
  store (pre ++ l) (length pre) x = (pre ++.) <$> store l 0 x.
Proof. rewrite <- (store_app pre l 0), Nat.add_0_r. reflexivity. Qed.

Lemma vst1q_app0 (pre l : list F32) (v : Neon.float32x4_t F32) :
  vst1q_f32 (pre ++ l) (length pre) v = (pre ++.) <$> vst1q_f32 l 0 v.
Proof. rewrite <- (vst1q_app pre l 0), Nat.add_0_r. reflexivity. Qed.

Ltac take16 l H :=
  do 16 (destruct l as [| ? l]; [simpl in H; lia |]).

Lemma main_loop_blocks (n : nat) :
  forall (preI blkI postI : list F64) (preO blkO postO : list F32),
  length blkI = 16 * n -> length blkO = 16 * n ->
  main_loop n (preI ++ blkI ++ postI) (length preI)
    (preO ++ blkO ++ postO) (length preO)
  = Some (length preI + length blkI, length preO + length blkO,
          preO ++ (fcvtn <$> blkI) ++ postO).
Proof.
  induction n as [| n IH]; intros preI blkI postI preO blkO postO HI HO.
  - destruct blkI; [| discriminate]. destruct blkO; [| discriminate].
    simpl. rewrite !Nat.add_0_r. reflexivity.
  - take16 blkI HI. take16 blkO HO.
    assert (HI' : length blkI = 16 * n) by (simpl in HI; lia).
    assert (HO' : length blkO = 16 * n) by (simpl in HO; lia).
    clear HI HO.
    cbn [Neon.main_loop].
    rewrite vld1q_app0, !vld1q_app. cbn.
    rewrite <- !Nat.add_assoc. cbn.
    rewrite store_app0. cbn.
    do 15 (rewrite store_app; cbn).
    match goal with
    | |- main_loop n (preI ++ ?a) _ (preO ++ ?b) _ = _ =>
        pose proof (IH (preI ++ take 16 a) blkI postI
                       (preO ++ take 16 b) blkO postO HI' HO') as IH'
    end.
    simpl take in IH'.
    rewrite <- !app_assoc, !length_app in IH'. simpl in IH'.
    rewrite IH'. simpl.
    do 2 f_equal. f_equal; lia.
Qed.

Lemma tail_loop_rest (blkI postI : list F64) (preI : list F64)
    (preO blkO postO : list F32) (fuel : nat) :
  forall i : nat,
  length blkO = length blkI -> i <= length blkI -> length blkI - i <= fuel ->
  tail_loop fuel (length blkI) i (preI ++ blkI ++ postI) (length preI)
    (preO ++ (cast <$> take i blkI) ++ drop i blkO ++ postO) (length preO)
  = Some (preO ++ (cast <$> blkI) ++ postO).
Proof.
  induction fuel as [| fuel IH]; intros i Hlen Hi Hfuel.
  - assert (i = length blkI) by lia. subst i. simpl.
    rewrite Nat.ltb_irrefl, take_ge, drop_ge by lia. reflexivity.
  - cbn [Neon.tail_loop].
    destruct (i <? length blkI) eqn:Hlt.
    + apply Nat.ltb_lt in Hlt.
      destruct (lookup_lt_is_Some_2 blkI i Hlt) as [x Hx].
      assert (Hlt' : i < length blkO) by lia.
      destruct (lookup_lt_is_Some_2 blkO i Hlt') as [y Hy].
      rewrite lookup_app_r, lookup_app_l by lia.
      replace (length preI + i - length preI) with i by lia.
      rewrite Hx. cbn.
      rewrite (drop_S _ _ _ Hy).
      assert (Hpos : length preO + i
                     = length (preO ++ (cast <$> take i blkI))).
      { rewrite length_app, length_fmap, length_take. lia. }
      rewrite Hpos, (app_assoc preO), store_app0. cbn.
      specialize (IH (S i) Hlen ltac:(lia) ltac:(lia)).
      rewrite (take_S_r _ _ _ Hx), fmap_app in IH. cbn in IH.
      rewrite <- !app_assoc in IH |- *. cbn in IH |- *. exact IH.
    + apply Nat.ltb_ge in Hlt. assert (i = length blkI) by lia. subst i.
      rewrite take_ge, drop_ge by lia. reflexivity.
Qed.

Variable finite : F64 -> Prop.
Hypothesis fcvtn_cast : forall x, finite x -> fcvtn x = cast x.

(** C9: for every [count] and every input buffer of finite doubles holding
  at least [count] samples (the output buffer having room for them),
  [neon_convert] -- sixteen samples per pass through the vector loop, the
  remaining [count mod 16] through the scalar loop -- stores exactly what
  the elementwise scalar conversion stores: element [i] of the output is
  the cast of element [i] of the input for every [i < count], in order,
  none skipped or repeated, and the output beyond [count] is untouched.
  The vector lane conversion is assumed to agree with the C cast on
  finite values. *)
Theorem neon_convert_scalar (input : list F64) (output : list F32) (count : nat) :
  count <= length input -> count <= length output ->
  Forall finite input ->
  exists out : list F32,
    Neon.neon_convert F64 F32 cast fcvtn input output count = Some out
    /\ out = Neon.scalar_convert F64 F32 cast input output count
    /\ length out = length output
    /\ (forall i, i < count -> out !! i = cast <$> input !! i)
    /\ (forall i, count <= i -> out !! i = output !! i).
Proof.
  intros HI HO Hfin.
  exists (Neon.scalar_convert F64 F32 cast input output count).
  split; [| split; [reflexivity |]]; cycle 1.
  { unfold Neon.scalar_convert.
    assert (Hl : length (cast <$> take count input) = count)
      by (rewrite length_fmap, length_take; lia).
    split; [| split].
    - rewrite length_app, Hl, length_drop. lia.
    - intros i Hi. rewrite lookup_app_l by lia.
      rewrite list_lookup_fmap, lookup_take_lt by lia. reflexivity.
    - intros i Hi. rewrite lookup_app_r by lia.
      rewrite Hl, lookup_drop. f_equal. lia. }
  unfold Neon.neon_convert, Neon.scalar_convert.
  pose proof (Nat.div_mod_eq count 16) as Hdm.
  assert (Hr : count mod 16 < 16) by (apply Nat.mod_upper_bound; lia).
  remember (count / 16) as n eqn:Hn. remember (count mod 16) as r eqn:Hrr.
  clear Hn Hrr.
  set (A := take (16 * n) input). set (B := take r (drop (16 * n) input)).
  set (C := drop r (drop (16 * n) input)).
  set (A' := take (16 * n) output). set (B' := take r (drop (16 * n) output)).
  set (C' := drop r (drop (16 * n) output)).
  assert (EI : input = A ++ B ++ C).
  { unfold A, B, C. rewrite !take_drop. reflexivity. }
  assert (EO : output = A' ++ B' ++ C').
  { unfold A', B', C'. rewrite !take_drop. reflexivity. }
  assert (LA : length A = 16 * n) by (unfold A; rewrite length_take; lia).
  assert (LA' : length A' = 16 * n) by (unfold A'; rewrite length_take; lia).
  assert (LB : length B = r)
    by (unfold B; rewrite length_take, length_drop; lia).
  assert (LB' : length B' = r)
    by (unfold B'; rewrite length_take, length_drop; lia).
  assert (Hc : take count input = A ++ B).
  { unfold A, B. rewrite take_take_drop. f_equal. lia. }
  assert (Hd : drop count output = C').
  { unfold C'. rewrite drop_drop. f_equal. lia. }
  assert (HA : fcvtn <$> A = cast <$> A).
  { apply Forall_fmap_ext_1. unfold A. apply Forall_take.
    eapply Forall_impl; [exact Hfin |]. exact fcvtn_cast. }
  rewrite Hc, Hd. clearbody A B C A' B' C'. subst input output.
  clear Hc Hd HI HO Hfin.
  pose proof (main_loop_blocks n [] A (B ++ C) [] A' (B' ++ C') LA LA') as Hm.
  simpl in Hm. rewrite Hm. cbn [mbind option_bind].
  pose proof (tail_loop_rest B C A (fcvtn <$> A) B' C' r 0) as Ht.
  rewrite take_0, drop_0, LB, length_fmap in Ht. simpl in Ht.
  rewrite LA in Ht. rewrite LA, LA'.
  rewrite Ht by lia. rewrite HA, fmap_app, <- app_assoc. reflexivity.
Qed.
End ConvertCorrect.

Lemma neon_convert_scalar_witness :
  exists out : list spec_float,
    Neon.neon_convert spec_float spec_float float_of_double float_of_double
      sampleDoubles (repeat (S754_zero false) 20) 17 = Some out
    /\ out = Neon.scalar_convert spec_float spec_float float_of_double
               sampleDoubles (repeat (S754_zero false) 20) 17
    /\ length out = length (repeat (S754_zero false) 20)
    /\ (forall i, (i < 17)%nat -> out !! i = float_of_double <$> sampleDoubles !! i)
    /\ (forall i, (17 <= i)%nat -> out !! i = repeat (S754_zero false) 20 !! i).
Proof.
  apply (neon_convert_scalar spec_float spec_float float_of_double
           float_of_double double_finite (fun x _ => eq_refl)).
  - simpl. lia.
  - simpl. lia.
  - unfold sampleDoubles. simpl. repeat (apply List.Forall_cons; [exact I |]).
    apply List.Forall_nil.
Defined.

(** * Further properties of the engine *)

(** ** Enabling and disabling *)

(** X1: [enable] returns true exactly when the engine is already enabled
    or has its renderer on a system that supports it.  Enabling a disabled
    engine leaves it enabled and not paused, with an empty queue, the
    timeline at zero, the synchronizer running at rate 1, and the format
    and capacity it had; a failed [enable] leaves the engine disabled and
    changes nothing but the console, so it can be retried. *)
Theorem enable_outcome (e : Engine) :
  (fst (enable e) = true
   <-> isEnabled e = true \/ (hasSink e = true /\ macOS11 e = true))
  /\ (isEnabled e = false -> fst (enable e) = true ->
      isEnabled (snd (enable e)) = true
      /\ isPaused (snd (enable e)) = false
      /\ sampleQueue (snd (enable e)) = []
      /\ nextPresentationTime (snd (enable e)) = kCMTimeZero
      /\ lastBufferPresentationTime (snd (enable e)) = kCMTimeInvalid
      /\ sinkRate (snd (enable e)) = 1
      /\ delivered (snd (enable e)) = delivered e
      /\ currentFormat (snd (enable e)) = currentFormat e
      /\ maxQueueSize (snd (enable e)) = maxQueueSize e)
  /\ (fst (enable e) = false ->
      isEnabled (snd (enable e)) = false
      /\ sameButConsole e (snd (enable e))
      /\ exists line, console (snd (enable e)) = console e ++ [line]).
Proof.
  destruct e as [o cb [k |] f nx la q m en pa co];
    unfold enable, hasSink, sinkRate, delivered, sameButConsole; simpl;
    destruct en, o; simpl;
    (split; [split; [intros H; try discriminate H; auto | intros [H | [H1 H2]]; congruence] |]);
    (split; [intros H1 H2; try discriminate; repeat split; reflexivity |]);
    intros H; try discriminate H; (split; [reflexivity |]);
    (split; [reflexivity | eexists; reflexivity]).
Qed.

(** X2: after [disable] the engine is disabled, and a second [disable]
    changes nothing more; on a disabled engine [disable] does nothing at
    all.  Disabling an enabled engine clears the paused flag, empties the
    queue and the sink and stops the synchronizer, while the format, the
    capacity and both timeline values stay. *)
Theorem disable_outcome (e : Engine) :
  isEnabled (disable e) = false
  /\ disable (disable e) = disable e
  /\ (isEnabled e = false -> disable e = e)
  /\ (isEnabled e = true -> macOS11 e = true ->
      isPaused (disable e) = false
      /\ sampleQueue (disable e) = []
      /\ delivered (disable e) = []
      /\ sinkRate (disable e) = 0
      /\ currentFormat (disable e) = currentFormat e
      /\ maxQueueSize (disable e) = maxQueueSize e
      /\ nextPresentationTime (disable e) = nextPresentationTime e
      /\ lastBufferPresentationTime (disable e) = lastBufferPresentationTime e).
Proof.
  destruct e as [o cb [k |] f nx la q m en pa co];
    unfold disable, sinkRate, delivered; simpl;
    destruct en, o; simpl; repeat split; intros; try discriminate; reflexivity.
Qed.

(** X3: [disable] followed by [enable] on an enabled engine always
    succeeds and begins a new session: enabled, not paused, nothing queued
    or pending in the sink, the timeline at zero, and the format and
    capacity of before. *)
Theorem restart_begins_session (e : Engine) :
  isEnabled e = true -> macOS11 e = true -> hasSink e = true ->
  let e' := snd (enable (disable e)) in
  fst (enable (disable e)) = true
  /\ SessionStart e'
  /\ running e'
  /\ sampleQueue e' = [] /\ delivered e' = []
  /\ nextPresentationTime e' = kCMTimeZero
  /\ currentFormat e' = currentFormat e
  /\ maxQueueSize e' = maxQueueSize e.
Proof.
  intros He Ho Hk.
  destruct e as [o cb [k |] f nx la q m en pa co]; simpl in *;
    [| discriminate]; subst.
  split; [reflexivity |]. split.
  - apply StartEnable; reflexivity.
  - unfold running. simpl. repeat split; reflexivity.
Qed.

Lemma restart_begins_session_witness :
  let e := snd (feedAll (repeat (stereoCall 100 48000) 2) hostEngine) in
  let e' := snd (enable (disable e)) in
  fst (enable (disable e)) = true
  /\ SessionStart e'
  /\ running e'
  /\ sampleQueue e' = [] /\ delivered e' = []
  /\ nextPresentationTime e' = kCMTimeZero
  /\ currentFormat e' = currentFormat e
  /\ maxQueueSize e' = maxQueueSize e.
Proof.
  apply (restart_begins_session
           (snd (feedAll (repeat (stereoCall 100 48000) 2) hostEngine)));
    reflexivity.
Defined.

(** ** Invariants of reachable states *)

Lemma feed_disabled c e :
  isEnabled e = false -> sampleQueue (snd (feed c e)) = sampleQueue e.
Proof.
  intros Hd. apply feed_rejected.
  destruct (Z.eq_dec (fst (feed c e)) 0) as [Hz | Hnz]; [exact Hz |].
  apply feed_accepted in Hnz. destruct Hnz as (_ & He & _). congruence.
Qed.

Lemma step_consistent o e : consistent e -> consistent (step o e).
Proof.
  intros Hc.
  destruct o as [n | cb | created sr ch | | | | | | c |].
  - unfold consistent in *. destruct e as [o cb' k f nx la q m en pa co].
    simpl in *. unfold setQueueSize. break_if; simpl; exact Hc.
  - unfold consistent in *. destruct e; simpl in *. exact Hc.
  - unfold consistent in *. destruct e as [o cb' k f nx la q m en pa co].
    simpl in *. unfold setupAudioFormat. simpl.
    repeat (break_if; simpl); exact Hc.
  - destruct e as [o cb' [k |] f nx la q m en pa co];
      unfold consistent in *; simpl in *; unfold enable; simpl;
      destruct en; simpl; try exact Hc; destruct o; simpl; try exact Hc.
    repeat split; try reflexivity; try discriminate.
    eexists. split; [reflexivity |]. simpl. split; reflexivity.
  - destruct e as [o cb' k f nx la q m en pa co];
      unfold consistent in *; simpl in *; unfold disable; simpl.
    destruct en; simpl; [| exact Hc].
    destruct Hc as (_ & Hen & _). destruct (Hen eq_refl) as [-> _]. simpl.
    repeat split; try reflexivity; intros; discriminate.
  - destruct e as [o cb' k f nx la q m en pa co];
      unfold consistent in *; simpl in *; unfold pause; simpl.
    destruct en; simpl; [| exact Hc].
    destruct Hc as (_ & Hen & _).
    destruct (Hen eq_refl) as [-> (k0 & -> & Hr & Hq)]. simpl.
    repeat split; try reflexivity; try discriminate.
    eexists. split; [reflexivity |]. simpl. split; [reflexivity | exact Hq].
  - destruct e as [o cb' k f nx la q m en pa co];
      unfold consistent in *; simpl in *; unfold resume; simpl.
    destruct en, pa; simpl; try exact Hc.
    destruct Hc as (_ & Hen & _).
    destruct (Hen eq_refl) as [-> (k0 & -> & Hr & Hq)]. simpl.
    repeat split; try reflexivity; try discriminate.
    eexists. split; [reflexivity |]. simpl. split; [reflexivity | exact Hq].
  - destruct e as [o cb' k f nx la q m en pa co];
      unfold consistent in *; simpl in *; unfold renderFromQueue; simpl.
    destruct en, pa; simpl; try exact Hc.
    destruct q as [| u rest]; simpl; [exact Hc |].
    destruct Hc as (_ & Hen & _).
    destruct (Hen eq_refl) as [-> (k0 & -> & Hr & Hq)]. simpl.
    repeat split; try reflexivity; try discriminate.
    eexists. split; [reflexivity |]. simpl. split; assumption.
  - simpl. destruct (feed_frame c e) as (Fo & _ & Fr & _ & Fe & Fp).
    unfold consistent in *. rewrite Fo, Fr, Fe, Fp.
    destruct Hc as (H1 & H2 & H3). repeat split; try assumption.
    + apply H2. assumption.
    + apply H2. assumption.
    + intros Hd. rewrite feed_disabled by exact Hd. apply H3. exact Hd.
  - destruct e as [o cb' k f nx la q m en pa co];
      unfold consistent in *; simpl in *; unfold flush; simpl.
    destruct en; simpl; [| exact Hc].
    destruct Hc as (Hp & Hen & _).
    destruct (Hen eq_refl) as [-> (k0 & -> & Hr & Hq)]. simpl.
    repeat split; try reflexivity; try discriminate; try exact Hp.
    eexists. split; [reflexivity |]. simpl. split; assumption.
Qed.

Lemma run_consistent (ops : list Op) :
  forall e, consistent e -> consistent (run ops e).
Proof.
  induction ops as [| o rest IH]; intros e Hc; simpl; [exact Hc |].
  apply IH. apply step_consistent. exact Hc.
Qed.

(** X4: whatever calls are made on a fresh engine, a paused engine is
    enabled; an enabled engine has its renderer, which is requesting media
    data and runs at rate 0 when paused and 1 otherwise; and a disabled
    engine has nothing queued. *)
Theorem reachable_consistent (available : bool) (ops : list Op) :
  consistent (run ops (init available)).
Proof.
  apply run_consistent. destruct available; unfold consistent; simpl;
    repeat split; intros; discriminate || reflexivity.
Qed.

Lemma step_capacity o e :
  0 <= maxQueueSize e <= 10 -> queueLength e <= 10 ->
  (1 <= maxQueueSize e -> 1 <= maxQueueSize (step o e))
  /\ 0 <= maxQueueSize (step o e) <= 10 /\ queueLength (step o e) <= 10.
Proof.
  intros Hm Hq.
  destruct o as [n | cb | created sr ch | | | | | | c |].
  - destruct e as [o cb' k f nx la q m en pa co]; unfold queueLength in *;
      simpl in *. unfold setQueueSize. simpl.
    destruct ((0 <? n) && (n <=? 10)) eqn:Hr; simpl; lia.
  - destruct e; unfold queueLength in *; simpl in *. lia.
  - destruct e as [o cb' k f nx la q m en pa co]; unfold queueLength in *;
      simpl in *. unfold setupAudioFormat. simpl.
    repeat (break_if; simpl); lia.
  - destruct e as [o cb' [k |] f nx la q m en pa co]; unfold queueLength in *;
      simpl in *; unfold enable; simpl; destruct en, o; simpl; lia.
  - destruct e as [o cb' k f nx la q m en pa co]; unfold queueLength in *;
      simpl in *; unfold disable; simpl; destruct en, o; simpl; lia.
  - destruct e as [o cb' k f nx la q m en pa co]; unfold queueLength in *;
      simpl in *; unfold pause; simpl; destruct en, o; simpl; lia.
  - destruct e as [o cb' k f nx la q m en pa co]; unfold queueLength in *;
      simpl in *; unfold resume; simpl; destruct en, pa, o; simpl; lia.
  - destruct e as [o cb' k f nx la q m en pa co]; unfold queueLength in *;
      simpl in *; unfold renderFromQueue; simpl;
      destruct en, pa; simpl; try lia;
      destruct q; simpl in *; try lia; destruct o; simpl; lia.
  - simpl. destruct (feed_frame c e) as (_ & _ & _ & Fm & _ & _). rewrite Fm.
    split; [tauto |]. split; [exact Hm |].
    destruct (Z.eq_dec (fst (feed c e)) 0) as [Hz | Hnz].
    + unfold queueLength in *. rewrite (feed_rejected c e Hz). exact Hq.
    + destruct (feed_accepted c e Hnz) as (_ & _ & _ & Hlt & _ & _ & u & Hu & _).
      unfold queueLength in *. rewrite Hu, length_app. simpl. lia.
  - destruct e as [o cb' k f nx la q m en pa co]; unfold queueLength in *;
      simpl in *; unfold flush; simpl; destruct en, o; simpl; lia.
Qed.

(** X5: whatever calls are made on a fresh engine, the capacity stays
    within 1..10 (0..10 where the renderer is unavailable) and the queue
    never holds more than 10 units, also when [setQueueSize:] lowers the
    capacity below the current queue length. *)
Theorem capacity_and_queue_bounded (available : bool) (ops : list Op) :
  let e := run ops (init available) in
  (if available then 1 else 0) <= maxQueueSize e <= 10
  /\ 0 <= queueLength e <= 10.
Proof.
  simpl.
  assert (H : forall ops e,
             0 <= maxQueueSize e <= 10 -> queueLength e <= 10 ->
             (1 <= maxQueueSize e -> 1 <= maxQueueSize (run ops e))
             /\ 0 <= maxQueueSize (run ops e) <= 10
             /\ queueLength (run ops e) <= 10).
  { clear. induction ops as [| o rest IH]; intros e Hm Hq; simpl.
    - tauto.
    - destruct (step_capacity o e Hm Hq) as (H1 & H2 & H3).
      destruct (IH (step o e) H2 H3) as (I1 & I2 & I3). tauto. }
  assert (Hnn : 0 <= queueLength (run ops (init available)))
    by (unfold queueLength; lia).
  destruct available.
  - destruct (H ops (init true)) as (H1 & H2 & H3);
      [simpl; lia | unfold queueLength; simpl; lia |].
    specialize (H1 ltac:(simpl; lia)). lia.
  - destruct (H ops (init false)) as (H1 & H2 & H3);
      [simpl; lia | unfold queueLength; simpl; lia |]. lia.
Qed.

(** ** Readiness and acceptance *)

(** X6: [isReadyForMoreMediaData] is true exactly when the engine is
    enabled, not paused and below capacity.  When it is false every
    [feedAudioData] returns 0 and leaves the queue alone; when it is true
    a call with valid arguments whose framework calls succeed is accepted
    in full. *)
Theorem ready_decides_acceptance (c : FeedCall) (e : Engine) :
  (isReadyForMoreMediaData e = true
   <-> isEnabled e = true /\ isPaused e = false
       /\ queueLength e < maxQueueSize e)
  /\ (isReadyForMoreMediaData e = false ->
      fst (feed c e) = 0 /\ sampleQueue (snd (feed c e)) = sampleQueue e)
  /\ (isReadyForMoreMediaData e = true -> macOS11 e = true ->
      acceptableCall c -> fst (feed c e) = fcFrameCount c).
Proof.
  assert (Hiff : isReadyForMoreMediaData e = true
                 <-> isEnabled e = true /\ isPaused e = false
                     /\ queueLength e < maxQueueSize e).
  { unfold isReadyForMoreMediaData, queueLength.
    destruct (isEnabled e), (isPaused e); simpl; split;
      try discriminate; try (intros (H1 & H2 & H3); discriminate).
    - intros H. repeat split; lia.
    - intros (_ & _ & H). lia. }
  split; [exact Hiff |]. split.
  - intros Hnr.
    assert (Hz : fst (feed c e) = 0).
    { destruct (Z.eq_dec (fst (feed c e)) 0) as [Hz | Hnz]; [exact Hz |].
      destruct (feed_accepted c e Hnz) as (_ & He & Hp & Hlt & _).
      assert (isReadyForMoreMediaData e = true) by (apply Hiff; auto).
      congruence. }
    split; [exact Hz | apply feed_rejected; exact Hz].
  - intros Hr Ho Hc. apply Hiff in Hr. destruct Hr as (He & Hp & Hlt).
    apply (feed_accepts c e Hc He Hp Ho Hlt).
Qed.

Lemma ready_decides_acceptance_witness :
  fst (feed (stereoCall 100 48000) hostEngine) = 100
  /\ fst (feed (stereoCall 100 48000)
            (snd (feedAll (repeat (stereoCall 100 48000) 3) hostEngine))) = 0.
Proof.
  split.
  - apply (ready_decides_acceptance (stereoCall 100 48000) hostEngine);
      [reflexivity | reflexivity |].
    unfold acceptableCall, externalsSucceed.
    split; [intros H; vm_compute in H; discriminate H |].
    simpl. repeat split; reflexivity || lia.
  - apply (ready_decides_acceptance (stereoCall 100 48000)
             (snd (feedAll (repeat (stereoCall 100 48000) 3) hostEngine))).
    reflexivity.
Defined.

(** X7: [feedAudioData] never accepts part of a block: it returns 0 and
    leaves the queue as it was, or it returns the (non-zero) frame count
    and appends exactly one unit behind the units already queued. *)
Theorem feed_all_or_nothing (c : FeedCall) (e : Engine) :
  (fst (feed c e) = 0 /\ sampleQueue (snd (feed c e)) = sampleQueue e)
  \/ (fst (feed c e) = fcFrameCount c /\ fcFrameCount c <> 0
      /\ exists u, sampleQueue (snd (feed c e)) = sampleQueue e ++ [u]).
Proof.
  destruct (Z.eq_dec (fst (feed c e)) 0) as [Hz | Hnz].
  - left. split; [exact Hz | apply feed_rejected; exact Hz].
  - right.
    destruct (feed_accepted c e Hnz) as (Hn & _ & _ & _ & _ & _ & u & Hu & _).
    split; [exact Hn |]. split; [congruence |]. exists u. exact Hu.
Qed.

(** ** What an accepted unit holds *)

(** X8: the unit an accepted call queues holds the caller's samples
    unchanged, [frameCount] samples of [4 * channels] bytes each, and the
    engine's current format, whose sample rate and channel count are the
    call's. *)
Theorem accepted_unit_contents (c : FeedCall) (e : Engine) :
  fst (feed c e) <> 0 ->
  exists u,
    sampleQueue (snd (feed c e)) = sampleQueue e ++ [u]
    /\ sbData u = fcData c
    /\ sbDataSize u = to_uint64 (4 * Z.of_nat (length (fcData c)))
    /\ sbNumSamples u = to_int64 (fcFrameCount c)
    /\ sbSampleSize u = to_uint64 (4 * fcChannels c)
    /\ sbFormat u = currentFormat (snd (feed c e))
    /\ formatSampleRate (sbFormat u) = fcSampleRate c
    /\ formatChannelCount (sbFormat u) = fcChannels c.
Proof.
  destruct e, c as [x d sr ch fc]; unfold_feed.
  repeat (break_if; simpl in *); intros H; try congruence;
    eexists; (split; [reflexivity |]); simpl;
    repeat split; try reflexivity;
    try apply requestedFormat_fields; lia.
Qed.

Lemma accepted_unit_contents_witness :
  exists u,
    sampleQueue (snd (feed (stereoCall 100 48000) hostEngine))
    = sampleQueue hostEngine ++ [u]
    /\ sbData u = fcData (stereoCall 100 48000)
    /\ sbDataSize u
       = to_uint64 (4 * Z.of_nat (length (fcData (stereoCall 100 48000))))
    /\ sbNumSamples u = to_int64 (fcFrameCount (stereoCall 100 48000))
    /\ sbSampleSize u = to_uint64 (4 * fcChannels (stereoCall 100 48000))
    /\ sbFormat u = currentFormat (snd (feed (stereoCall 100 48000) hostEngine))
    /\ formatSampleRate (sbFormat u) = fcSampleRate (stereoCall 100 48000)
    /\ formatChannelCount (sbFormat u) = fcChannels (stereoCall 100 48000).
Proof.
  apply (accepted_unit_contents (stereoCall 100 48000) hostEngine).
  vm_compute. discriminate.
Defined.

(** ** Format negotiation *)

(** X9: [setupAudioFormat:channels:] succeeds exactly on a supported system
    when the current format already has the requested rate and channel
    count or AVFoundation builds the new one.  After a success the current
    format has the requested rate and channel count and nothing else has
    changed; after a failure the previous format is still current and only
    a console line was added. *)
Theorem setupAudioFormat_outcome (created : bool) (sampleRate channels : Z)
    (e : Engine) :
  let r := setupAudioFormat created sampleRate channels e in
  (fst r = true
   <-> macOS11 e = true
       /\ ((sampleRate = formatSampleRate (currentFormat e)
            /\ channels = formatChannelCount (currentFormat e))
           \/ created = true))
  /\ (fst r = true ->
      formatSampleRate (currentFormat (snd r)) = sampleRate
      /\ formatChannelCount (currentFormat (snd r)) = channels
      /\ setCurrentFormat (currentFormat e) (snd r) = e)
  /\ (fst r = false ->
      currentFormat (snd r) = currentFormat e
      /\ sameButConsole e (snd r)
      /\ exists line, console (snd r) = console e ++ [line]).
Proof.
  destruct e as [o cb k f nx la q m en pa co].
  unfold setupAudioFormat, sameButConsole. simpl.
  destruct o; simpl.
  - destruct ((sampleRate =? formatSampleRate f)
              && (channels =? formatChannelCount f)) eqn:Hsame; simpl.
    + apply andb_true_iff in Hsame. destruct Hsame as [H1 H2].
      apply Z.eqb_eq in H1, H2.
      repeat split; auto; try discriminate.
    + destruct created; simpl.
      * destruct (requestedFormat_fields sampleRate channels) as [H1 H2].
        repeat split; auto; try discriminate.
      * split.
        { split; [discriminate |]. intros [_ [[H1 H2] | H]]; [| discriminate].
          subst. rewrite !Z.eqb_refl in Hsame. discriminate. }
        split; [discriminate |]. intros _.
        repeat split. eexists. reflexivity.
  - split.
    { split; [discriminate |]. intros [H _]. discriminate. }
    split; [discriminate |]. intros _. repeat split. eexists. reflexivity.
Qed.

(** ** Failures inside [feedAudioData] and the timeline *)

(** X10: when every framework call up to the block buffer succeeds and
    [CMSampleBufferCreateReady] fails, the call returns 0, queues nothing
    and logs the status, but the timeline has already moved on by the
    block's duration. *)
Theorem sample_buffer_failure_advances_timeline (c : FeedCall) (e : Engine) :
  isEnabled e = true -> isPaused e = false -> macOS11 e = true ->
  queueLength e < maxQueueSize e ->
  fcData c <> [] -> fcFrameCount c <> 0 -> fcChannels c <> 0 ->
  sampleBufferFails (fcExternals c) ->
  fst (feed c e) = 0
  /\ sampleQueue (snd (feed c e)) = sampleQueue e
  /\ nextPresentationTime (snd (feed c e))
     = CMTimeAdd (nextPresentationTime e) (callDuration c)
  /\ lastBufferPresentationTime (snd (feed c e)) = nextPresentationTime e
  /\ console (snd (feed c e))
     = console e ++ [mkLogLine (logCallback e) msgSampleBufferFailed
                       [to_int32 (sampleBufferStatus (fcExternals c))]].
Proof.
  intros He Hp Ho Hq Hd Hf Hc (Hx1 & Hx2 & Hx3 & Hx4).
  destruct e, c as [x d sr ch fc]; destruct x as [xf xa xb xs xr].
  unfold queueLength, callDuration in *; simpl in *; subst.
  unfold_feed.
  assert (Hlen : (Z.of_nat (length d) =? 0) = false).
  { destruct d; [congruence | simpl; lia]. }
  rewrite Hlen.
  assert (Hfc : (fc =? 0) = false) by lia.
  assert (Hch : (ch =? 0) = false) by lia.
  rewrite Hfc, Hch. simpl.
  assert (Hsb : (xs =? noErr) && xr = false).
  { destruct Hx4 as [H | H]; [| subst; apply andb_false_r].
    apply andb_false_iff. left. lia. }
  repeat (break_if; simpl in *); try lia; try congruence;
    repeat split; reflexivity.
Qed.

Lemma sample_buffer_failure_advances_timeline_witness :
  fst (feed (failingCall 1000 48000 (-12731)) hostEngine) = 0
  /\ nextPresentationTime (snd (feed (failingCall 1000 48000 (-12731)) hostEngine))
     = CMTimeMake 1000 48000.
Proof.
  assert (Hd : fcData (failingCall 1000 48000 (-12731)) <> [])
    by (intros H; vm_compute in H; discriminate H).
  assert (Hx : sampleBufferFails (fcExternals (failingCall 1000 48000 (-12731)))).
  { unfold sampleBufferFails. simpl. repeat split; try reflexivity.
    left. discriminate. }
  destruct (sample_buffer_failure_advances_timeline
              (failingCall 1000 48000 (-12731)) hostEngine
              eq_refl eq_refl eq_refl eq_refl Hd
              ltac:(simpl; discriminate) ltac:(simpl; discriminate) Hx)
    as (H0 & _ & Hn & _).
  split; [exact H0 |]. rewrite Hn. reflexivity.
Defined.

(** X11: a call that returns 0 for any other reason than a failing
    [CMSampleBufferCreateReady] leaves both timeline values and the queue
    as they were. *)
Theorem rejected_feed_keeps_timeline (c : FeedCall) (e : Engine) :
  fst (feed c e) = 0 -> sampleBufferCreated (fcExternals c) ->
  nextPresentationTime (snd (feed c e)) = nextPresentationTime e
  /\ lastBufferPresentationTime (snd (feed c e)) = lastBufferPresentationTime e
  /\ sampleQueue (snd (feed c e)) = sampleQueue e.
Proof.
  intros Hz [Hs Hr].
  split; [| split; [| apply feed_rejected; exact Hz]]; revert Hz;
    destruct e, c as [x d sr ch fc]; destruct x; simpl in *; subst;
    unfold_feed; repeat (break_if; simpl in *); intros H;
    try reflexivity; exfalso; lia.
Qed.

Lemma rejected_feed_keeps_timeline_witness :
  let full := snd (feedAll (repeat (stereoCall 100 48000) 3) hostEngine) in
  nextPresentationTime (snd (feed (stereoCall 100 48000) full))
  = nextPresentationTime full
  /\ lastBufferPresentationTime (snd (feed (stereoCall 100 48000) full))
     = lastBufferPresentationTime full
  /\ sampleQueue (snd (feed (stereoCall 100 48000) full)) = sampleQueue full.
Proof.
  apply (rejected_feed_keeps_timeline (stereoCall 100 48000)
           (snd (feedAll (repeat (stereoCall 100 48000) 3) hostEngine))).
  - reflexivity.
  - split; reflexivity.
Defined.

(** ** First in, first out *)

Lemma feed_accepted_data c e :
  fst (feed c e) <> 0 ->
  exists u, sampleQueue (snd (feed c e)) = sampleQueue e ++ [u]
            /\ sbData u = fcData c.
Proof.
  destruct e, c as [x d sr ch fc]; unfold_feed.
  repeat (break_if; simpl in *); intros H; try congruence;
    eexists; split; reflexivity.
Qed.

Lemma feedAll_data (calls : list FeedCall) :
  forall e : Engine,
  isEnabled e = true -> isPaused e = false -> macOS11 e = true ->
  queueLength e + Z.of_nat (length calls) <= maxQueueSize e ->
  Forall acceptableCall calls ->
  let e' := snd (feedAll calls e) in
  fst (feedAll calls e) = fcFrameCount <$> calls
  /\ sbData <$> sampleQueue e' = (sbData <$> sampleQueue e) ++ (fcData <$> calls)
  /\ isEnabled e' = true /\ isPaused e' = false /\ macOS11 e' = true
  /\ renderer e' = renderer e.
Proof.
  induction calls as [| c rest IH]; intros e He Hp Ho Hroom Hall.
  - simpl. rewrite app_nil_r. repeat split; assumption.
  - apply Forall_cons in Hall. destruct Hall as [Hc Hrest].
    rewrite feedAll_cons. simpl length in Hroom. simpl.
    destruct (feed_frame c e) as (Fo & _ & Fr & Fm & Fe & Fp).
    destruct (feed_accepts c e Hc He Hp Ho) as [Hn _];
      [unfold queueLength in *; lia |].
    assert (Hnz : fst (feed c e) <> 0).
    { rewrite Hn. destruct Hc as (_ & Hf & _). exact Hf. }
    destruct (feed_accepted_data c e Hnz) as (u & Hu & Hd).
    destruct (IH (snd (feed c e))) as (Hr & Hq & He' & Hp' & Ho' & Hk');
      try congruence.
    { unfold queueLength in *. rewrite Fm, Hu, length_app. simpl. lia. }
    rewrite Hn, Hr, Hq, Hu, fmap_app, Hk', Fr. simpl.
    rewrite Hd, <- app_assoc. simpl. repeat split; assumption.
Qed.

(** X12: blocks fed to a running engine with an empty queue and enough
    capacity reach the sink in the order they were fed, each exactly once,
    with their samples unchanged; after as many render callbacks as blocks
    the queue is empty. *)
Theorem units_rendered_in_feed_order (calls : list FeedCall) (e : Engine) :
  running e -> sampleQueue e = [] ->
  Z.of_nat (length calls) <= maxQueueSize e ->
  Forall acceptableCall calls ->
  let fed := snd (feedAll calls e) in
  let done := Nat.iter (length calls) renderFromQueue fed in
  sbData <$> delivered done = (sbData <$> delivered e) ++ (fcData <$> calls)
  /\ sampleQueue done = [].
Proof.
  intros (He & Hp & Ho & Hk) Hq Hroom Hall fed done.
  destruct (feedAll_data calls e He Hp Ho) as (_ & Hd & He' & Hp' & Ho' & Hk');
    [unfold queueLength; rewrite Hq; simpl; lia | exact Hall |].
  fold fed in Hd, He', Hp', Ho', Hk'.
  assert (Hs : hasSink fed = true) by (unfold hasSink in *; rewrite Hk'; exact Hk).
  destruct (render_iter (length calls) fed He' Hp' Ho' Hs) as (Hrq & Hrd & _).
  fold done in Hrq, Hrd.
  assert (Hlen : length (sampleQueue fed) = length calls).
  { apply (f_equal length) in Hd.
    rewrite Hq, !length_fmap in Hd. simpl in Hd. rewrite length_fmap in Hd.
    exact Hd. }
  split.
  - rewrite Hrd, fmap_app, take_ge by lia. rewrite Hd, Hq. simpl.
    unfold delivered. rewrite Hk'. reflexivity.
  - rewrite Hrq. apply drop_ge. lia.
Qed.

Lemma units_rendered_in_feed_order_witness :
  let calls := [stereoCall 100 48000; stereoCall 441 44100] in
  let done := Nat.iter 2 renderFromQueue (snd (feedAll calls hostEngine)) in
  sbData <$> delivered done
  = (sbData <$> delivered hostEngine) ++ (fcData <$> calls)
  /\ sampleQueue done = [].
Proof.
  apply (units_rendered_in_feed_order
           [stereoCall 100 48000; stereoCall 441 44100] hostEngine).
  - repeat split; reflexivity.
  - reflexivity.
  - simpl. lia.
  - assert (H : forall f r, (0 < f)%Z -> acceptableCall (stereoCall f r)).
    { intros f r Hf. unfold acceptableCall, externalsSucceed, stereoCall,
        stereoSilence. simpl.
      split.
      - destruct (Z.to_nat f) eqn:Hn; [lia | simpl; discriminate].
      - repeat split; reflexivity || lia. }
    apply List.Forall_cons; [apply H; lia |].
    apply List.Forall_cons; [apply H; lia |]. apply List.Forall_nil.
Defined.

(** ** Pause, resume and flush *)

(** X13: on a running engine whose synchronizer is at rate 1, [pause]
    followed by [resume] restores the engine exactly, apart from the two
    console lines. *)
Theorem resume_undoes_pause (e : Engine) :
  running e -> sinkRate e = 1 ->
  resume (pause e)
  = setConsole (console e ++ [mkLogLine (logCallback e) msgPaused [];
                              mkLogLine (logCallback e) msgResumed []]) e
  /\ sameButConsole e (resume (pause e)).
Proof.
  intros (He & Hp & Ho & Hk) Hr.
  destruct e as [o cb [[r v mu rq enq] |] f nx la q m en pa co];
    unfold sinkRate, hasSink, sameButConsole in *; simpl in *;
    [| discriminate]; subst.
  unfold resume, pause, logMessage, setConsole. simpl.
  rewrite <- app_assoc. split; reflexivity.
Qed.

Lemma resume_undoes_pause_witness :
  sameButConsole hostEngine (resume (pause hostEngine)).
Proof.
  apply (resume_undoes_pause hostEngine).
  - repeat split; reflexivity.
  - reflexivity.
Defined.

(** X14: [flush] is idempotent and does nothing on a disabled engine; it
    never changes the enabled and paused flags, the format, the capacity,
    the console or the synchronizer's rate, and on an enabled engine it
    resets the timeline and empties the sink. *)
Theorem flush_outcome (e : Engine) :
  flush (flush e) = flush e
  /\ (isEnabled e = false -> flush e = e)
  /\ isEnabled (flush e) = isEnabled e
  /\ isPaused (flush e) = isPaused e
  /\ currentFormat (flush e) = currentFormat e
  /\ maxQueueSize (flush e) = maxQueueSize e
  /\ console (flush e) = console e
  /\ sinkRate (flush e) = sinkRate e
  /\ (isEnabled e = true -> macOS11 e = true ->
      nextPresentationTime (flush e) = kCMTimeZero
      /\ lastBufferPresentationTime (flush e) = kCMTimeInvalid
      /\ delivered (flush e) = []).
Proof.
  destruct e as [o cb [k |] f nx la q m en pa co];
    unfold flush, sinkRate, delivered; simpl;
    destruct en, o; simpl; repeat split; intros; try discriminate; reflexivity.
Qed.

(** * The converter without the agreement of the two conversions *)

Section ConvertPaths.
Local Open Scope nat_scope.

Variables F64 F32 : Type.
Variable cast : F64 -> F32.
Variable fcvtn : F64 -> F32.

Lemma neon_convert_value (input : list F64) (output : list F32) (count : nat) :
  count <= length input -> count <= length output ->
  Neon.neon_convert F64 F32 cast fcvtn input output count
  = Some ((fcvtn <$> take (16 * (count / 16)) input)
          ++ (cast <$> take (count mod 16) (drop (16 * (count / 16)) input))
          ++ drop count output).
Proof.
  intros HI HO. unfold Neon.neon_convert.
  pose proof (Nat.div_mod_eq count 16) as Hdm.
  assert (Hr : count mod 16 < 16) by (apply Nat.mod_upper_bound; lia).
  remember (count / 16) as n eqn:Hn. remember (count mod 16) as r eqn:Hrr.
  clear Hn Hrr.
  set (A := take (16 * n) input). set (B := take r (drop (16 * n) input)).
  set (C := drop r (drop (16 * n) input)).
  set (A' := take (16 * n) output). set (B' := take r (drop (16 * n) output)).
  set (C' := drop r (drop (16 * n) output)).
  assert (EI : input = A ++ B ++ C).
  { unfold A, B, C. rewrite !take_drop. reflexivity. }
  assert (EO : output = A' ++ B' ++ C').
  { unfold A', B', C'. rewrite !take_drop. reflexivity. }
  assert (LA : length A = 16 * n) by (unfold A; rewrite length_take; lia).
  assert (LA' : length A' = 16 * n) by (unfold A'; rewrite length_take; lia).
  assert (LB : length B = r)
    by (unfold B; rewrite length_take, length_drop; lia).
  assert (LB' : length B' = r)
    by (unfold B'; rewrite length_take, length_drop; lia).
  assert (Hd : drop count output = C').
  { unfold C'. rewrite drop_drop. f_equal. lia. }
  rewrite Hd. clearbody A B C A' B' C'. subst input output.
  clear Hd HI HO.
  pose proof (main_loop_blocks F64 F32 fcvtn n [] A (B ++ C) [] A' (B' ++ C')
                LA LA') as Hm.
  simpl in Hm. rewrite Hm. cbn [mbind option_bind].
  pose proof (tail_loop_rest F64 F32 cast B C A (fcvtn <$> A) B' C' r 0) as Ht.
  rewrite take_0, drop_0, LB, length_fmap in Ht. simpl in Ht.
  rewrite LA in Ht. rewrite LA, LA'.
  rewrite Ht by lia. reflexivity.
Qed.

Ltac bind_some H :=
  repeat match type of H with
         | (?m ≫= _) = Some _ =>
             let E := fresh "E" in
             destruct m eqn:E; cbn [mbind option_bind] in H;
             [| discriminate H]
         end.

Lemma store_length (out : list F32) (i : nat) (x : F32) (o : list F32) :
  Neon.store F32 out i x = Some o -> length o = length out.
Proof.
  unfold Neon.store. destruct (i <? length out); [| discriminate].
  intros H. inversion H. apply length_insert.
Qed.

Lemma vst1q_length (out : list F32) (i : nat) (v : Neon.float32x4_t F32)
    (o : list F32) :
  Neon.vst1q_f32 F32 out i v = Some o -> length o = length out.
Proof.
  destruct v as [[[a b] c] d]. unfold Neon.vst1q_f32. intros H.
  bind_some H.
  repeat match goal with
         | E : Neon.store F32 _ _ _ = Some _ |- _ =>
             apply store_length in E
         end.
  congruence.
Qed.

Lemma main_loop_length (n : nat) :
  forall (input : list F64) (src : nat) (output : list F32) (dst : nat) r,
  Neon.main_loop F64 F32 fcvtn n input src output dst = Some r ->
  length (snd r) = length output.
Proof.
  induction n as [| n IH]; intros input src output dst r H.
  - inversion H. reflexivity.
  - cbn [Neon.main_loop] in H. bind_some H.
    apply IH in H.
    repeat match goal with
           | E : Neon.vst1q_f32 F32 _ _ _ = Some _ |- _ =>
               apply vst1q_length in E
           end.
    congruence.
Qed.

Lemma tail_loop_length (fuel : nat) :
  forall (remaining i : nat) (input : list F64) (src : nat)
         (output : list F32) (dst : nat) (o : list F32),
  Neon.tail_loop F64 F32 cast fuel remaining i input src output dst = Some o ->
  length o = length output.
Proof.
  induction fuel as [| fuel IH]; intros remaining i input src output dst o H.
  - simpl in H. destruct (i <? remaining); [discriminate |].
    inversion H. reflexivity.
  - cbn [Neon.tail_loop] in H.
    destruct (i <? remaining); [| inversion H; reflexivity].
    bind_some H. apply IH in H.
    match goal with
    | E : Neon.store F32 _ _ _ = Some _ |- _ => apply store_length in E
    end.
    congruence.
Qed.

Lemma neon_convert_keeps_length (input : list F64) (output : list F32)
    (count : nat) (out : list F32) :
  Neon.neon_convert F64 F32 cast fcvtn input output count = Some out ->
  length out = length output.
Proof.
  unfold Neon.neon_convert. intros H.
  destruct (Neon.main_loop F64 F32 fcvtn (count / 16) input 0 output 0)
    as [[[src dst] out1] |] eqn:Hm; cbn [mbind option_bind] in H;
    [| discriminate H].
  apply main_loop_length in Hm. apply tail_loop_length in H.
  simpl in Hm. congruence.
Qed.

Lemma neon_convert_length (input : list F64) (output : list F32) (count : nat) :
  count <= length input -> count <= length output ->
  exists out : list F32,
    Neon.neon_convert F64 F32 cast fcvtn input output count = Some out
    /\ length out = length output.
Proof.
  intros HI HO. eexists. split; [apply neon_convert_value; assumption |].
  pose proof (Nat.div_mod_eq count 16) as Hdm.
  rewrite !length_app, !length_fmap, !length_take, !length_drop. lia.
Qed.

(** X15: whatever the two conversions are, [neon_convert] applies the
    vector lane conversion to the first [16 * (count / 16)] samples and the
    C cast to the remaining [count mod 16], each sample at its own index,
    keeps the length of the output buffer and leaves it untouched from
    [count] on. *)
Theorem neon_convert_lanes (input : list F64) (output : list F32) (count : nat) :
  count <= length input -> count <= length output ->
  exists out : list F32,
    Neon.neon_convert F64 F32 cast fcvtn input output count = Some out
    /\ length out = length output
    /\ (forall i, i < 16 * (count / 16) -> out !! i = fcvtn <$> input !! i)
    /\ (forall i, 16 * (count / 16) <= i < count ->
          out !! i = cast <$> input !! i)
    /\ (forall i, count <= i -> out !! i = output !! i).
Proof.
  intros HI HO. eexists. split; [apply neon_convert_value; assumption |].
  pose proof (Nat.div_mod_eq count 16) as Hdm.
  assert (Hr : count mod 16 < 16) by (apply Nat.mod_upper_bound; lia).
  remember (count / 16) as n eqn:Hn. remember (count mod 16) as r eqn:Hrr.
  clear Hn Hrr.
  assert (L1 : length (fcvtn <$> take (16 * n) input) = 16 * n)
    by (rewrite length_fmap, length_take; lia).
  assert (L2 : length (cast <$> take r (drop (16 * n) input)) = r)
    by (rewrite length_fmap, length_take, length_drop; lia).
  repeat split.
  - rewrite !length_app, L1, L2, length_drop. lia.
  - intros i Hi. rewrite lookup_app_l by lia.
    rewrite list_lookup_fmap, lookup_take_lt by lia. reflexivity.
  - intros i Hi. rewrite lookup_app_r by lia. rewrite L1.
    rewrite lookup_app_l by lia.
    rewrite list_lookup_fmap, lookup_take_lt, lookup_drop by lia.
    do 2 f_equal. lia.
  - intros i Hi. rewrite lookup_app_r by lia. rewrite L1.
    rewrite lookup_app_r by lia. rewrite L2, lookup_drop. f_equal. lia.
Qed.

End ConvertPaths.

Lemma neon_convert_lanes_witness :
  exists out : list spec_float,
    Neon.neon_convert spec_float spec_float float_of_double id
      sampleDoubles (repeat (S754_zero false) 20) 17 = Some out
    /\ length out = length (repeat (S754_zero false) 20)
    /\ (forall i, (i < 16 * (17 / 16))%nat -> out !! i = id <$> sampleDoubles !! i)
    /\ (forall i, (16 * (17 / 16) <= i < 17)%nat ->
          out !! i = float_of_double <$> sampleDoubles !! i)
    /\ (forall i, (17 <= i)%nat -> out !! i = repeat (S754_zero false) 20 !! i).
Proof.
  apply (neon_convert_lanes spec_float spec_float float_of_double id).
  - simpl. lia.
  - simpl. lia.
Defined.

(** * Deinterleaving *)

Section DeinterleaveCorrect.
Local Open Scope nat_scope.

Variables F64 F32 : Type.
Variable cast : F64 -> F32.
Variable zero32 : F32.

Lemma fill_channel_rows (channels sample_count ch : nat) (data : list F64) :
  ch < channels -> channels * sample_count <= length data ->
  forall (fuel i : nat) (row : list F32),
  length row = sample_count -> i <= sample_count -> sample_count - i <= fuel ->
  exists row',
    Legacy.fill_channel F64 F32 cast fuel i sample_count channels ch data row
    = Some row'
    /\ length row' = sample_count
    /\ (forall j, i <= j < sample_count ->
          row' !! j = cast <$> data !! (j * channels + ch))
    /\ (forall j, j < i -> row' !! j = row !! j).
Proof.
  intros Hch Hdata.
  induction fuel as [| fuel IH]; intros i row Hlen Hi Hfuel.
  - assert (i = sample_count) by lia. subst i. simpl.
    rewrite Nat.ltb_irrefl. exists row. repeat split; auto. intros j Hj. lia.
  - cbn [Legacy.fill_channel].
    destruct (i <? sample_count) eqn:Hlt.
    + apply Nat.ltb_lt in Hlt.
      assert (Hidx : i * channels + ch < length data) by nia.
      destruct (lookup_lt_is_Some_2 data _ Hidx) as [x Hx].
      rewrite Hx. cbn [mbind option_bind].
      unfold Neon.store.
      assert (Hst : (i <? length row) = true) by (apply Nat.ltb_lt; lia).
      rewrite Hst. cbn [mbind option_bind].
      destruct (IH (S i) (<[i:=cast x]> row)) as (row' & Hr & Hl & Hnew & Hold);
        [rewrite length_insert; exact Hlen | lia | lia |].
      exists row'. split; [exact Hr |]. split; [exact Hl |]. split.
      * intros j Hj. destruct (Nat.eq_dec j i) as [-> | Hne].
        -- rewrite Hold by lia. rewrite list_lookup_insert_eq by lia.
           rewrite Hx. reflexivity.
        -- apply Hnew. lia.
      * intros j Hj. rewrite Hold by lia.
        apply list_lookup_insert_ne. lia.
    + apply Nat.ltb_ge in Hlt. exists row. repeat split; auto.
      intros j Hj. lia.
Qed.

Lemma channel_loop_rows (channels sample_count : nat) (data : list F64) :
  channels * sample_count <= length data ->
  forall (fuel ch : nat) (cd : list (list F32)),
  length cd = channels -> ch <= channels -> channels - ch <= fuel ->
  exists cd',
    Legacy.channel_loop F64 F32 cast zero32 fuel ch channels sample_count data cd
    = Some cd'
    /\ length cd' = channels
    /\ (forall c, ch <= c < channels ->
          exists row, cd' !! c = Some row
                      /\ channelOf cast channels sample_count data c row)
    /\ (forall c, c < ch -> cd' !! c = cd !! c).
Proof.
  intros Hdata.
  induction fuel as [| fuel IH]; intros ch cd Hlen Hch Hfuel.
  - assert (ch = channels) by lia. subst ch. simpl.
    rewrite Nat.ltb_irrefl. exists cd. repeat split; auto. intros c Hc. lia.
  - cbn [Legacy.channel_loop].
    destruct (ch <? channels) eqn:Hlt.
    + apply Nat.ltb_lt in Hlt.
      assert (Hin : ch < length cd) by lia.
      destruct (lookup_lt_is_Some_2 cd _ Hin) as [row Hrow].
      rewrite Hrow. cbn [mbind option_bind].
      destruct (fill_channel_rows channels sample_count ch data Hlt Hdata
                  sample_count 0 (resize sample_count zero32 row))
        as (filled & Hf & Hfl & Hnew & _);
        [apply length_resize | lia | lia |].
      rewrite Hf. cbn [mbind option_bind].
      destruct (IH (S ch) (<[ch:=filled]> cd)) as (cd' & Hr & Hl & Hrows & Hold);
        [rewrite length_insert; exact Hlen | lia | lia |].
      exists cd'. split; [exact Hr |]. split; [exact Hl |]. split.
      * intros c Hc. destruct (Nat.eq_dec c ch) as [-> | Hne].
        -- exists filled. split.
           ++ rewrite Hold by lia. apply list_lookup_insert_eq. lia.
           ++ split; [exact Hfl |]. intros i Hi. apply Hnew. lia.
        -- apply Hrows. lia.
      * intros c Hc. rewrite Hold by lia.
        apply list_lookup_insert_ne. lia.
    + apply Nat.ltb_ge in Hlt. exists cd. repeat split; auto.
      intros c Hc. lia.
Qed.

(** X16: for a chunk whose buffer holds [channels * sample_count]
    samples, [noopt_deinterleave] returns one vector per channel, each of
    [sample_count] samples, and sample [i] of channel [ch] is the cast of
    interleaved sample [i * channels + ch]. *)
Theorem noopt_deinterleave_channels (channels sample_count : nat)
    (data : list F64) :
  channels * sample_count <= length data ->
  exists cd : list (list F32),
    Legacy.noopt_deinterleave F64 F32 cast zero32 channels sample_count data
    = Some cd
    /\ length cd = channels
    /\ forall ch, ch < channels ->
         exists row, cd !! ch = Some row
                     /\ channelOf cast channels sample_count data ch row.
Proof.
  intros Hdata. unfold Legacy.noopt_deinterleave.
  destruct (channel_loop_rows channels sample_count data Hdata
              channels 0 (replicate channels []))
    as (cd & Hr & Hl & Hrows & _);
    [apply length_replicate | lia | lia |].
  exists cd. split; [exact Hr |]. split; [exact Hl |].
  intros ch Hch. apply Hrows. lia.
Qed.

End DeinterleaveCorrect.

Lemma noopt_deinterleave_channels_witness :
  exists cd : list (list spec_float),
    Legacy.noopt_deinterleave spec_float spec_float float_of_double
      (S754_zero false) 2 8 sampleDoubles = Some cd
    /\ length cd = 2%nat
    /\ forall ch, (ch < 2)%nat ->
         exists row, cd !! ch = Some row
                     /\ channelOf float_of_double 2 8 sampleDoubles ch row.
Proof.
  apply (noopt_deinterleave_channels spec_float spec_float float_of_double
           (S754_zero false) 2 8 sampleDoubles).
  simpl. lia.
Defined.

(** * The plugin over the engine *)

Section OutputCorrect.

Variable F64 : Type.
Variable cast : F64 -> Z.
Variable fcvtn : F64 -> Z.

Abbreviation process := (Host.process_samples_v2 F64 cast fcvtn).
Abbreviation calls := (Host.calls F64 cast fcvtn).

Lemma setup_frame created sr ch e :
  let e' := snd (setupAudioFormat created sr ch e) in
  macOS11 e' = macOS11 e /\ renderer e' = renderer e
  /\ sampleQueue e' = sampleQueue e /\ maxQueueSize e' = maxQueueSize e
  /\ isEnabled e' = isEnabled e /\ isPaused e' = isPaused e.
Proof.
  destruct e as [o cb k f nx la q m en pa co]. unfold setupAudioFormat. simpl.
  repeat (break_if; simpl); repeat split; reflexivity.
Qed.


Lemma process_engine created x p h n h' :
  process created x p h = Some (n, h') ->
  h' = h /\ n = 0
  \/ exists converted,
       Host.is_active h = true /\ Host.is_paused h = false
       /\ length converted = Host.get_used_size F64 p
       /\ n = fst (feed (mkFeedCall x converted (Host.get_sample_rate F64 p)
                           (Host.get_channels F64 p)
                           (Host.get_sample_count F64 p))
                     (snd (setupAudioFormat created (Host.get_sample_rate F64 p)
                             (Host.get_channels F64 p) (Host.engine h))))
       /\ Host.engine h'
          = step (OpFeed (mkFeedCall x converted (Host.get_sample_rate F64 p)
                            (Host.get_channels F64 p)
                            (Host.get_sample_count F64 p)))
              (step (OpSetupAudioFormat created (Host.get_sample_rate F64 p)
                       (Host.get_channels F64 p)) (Host.engine h))
       /\ Host.is_active h' = Host.is_active h
       /\ Host.is_paused h' = Host.is_paused h.
Proof.
  unfold Host.process_samples_v2.
  destruct (negb (Host.is_active h) || Host.is_paused h) eqn:Hgate;
    [intros H; inversion H; left; split; reflexivity |].
  destruct ((Host.get_sample_count F64 p =? 0) || (Host.get_channels F64 p =? 0));
    [intros H; inversion H; left; split; reflexivity |].
  destruct (Neon.neon_convert F64 Z cast fcvtn (Host.get_data F64 p)
              (replicate (Host.get_used_size F64 p) 0)
              (Host.get_used_size F64 p)) as [converted |] eqn:Hconv;
    simpl; [| discriminate].
  destruct (feedAudioData x converted _ _ _ _) as [m e2] eqn:Hfeed.
  intros H. inversion H. subst. right. exists converted.
  apply orb_false_iff in Hgate. destruct Hgate as [Ha Hp].
  apply negb_false_iff in Ha.
  assert (Hlen : length converted = Host.get_used_size F64 p).
  { apply neon_convert_keeps_length in Hconv.
    rewrite Hconv. apply length_replicate. }
  simpl. unfold feed. simpl. rewrite Hfeed. simpl. repeat split; assumption.
Qed.

Lemma flagsMirrored_step (o : Op) (e : Engine) (a p : bool) :
  (forall n, o <> OpSetQueueSize n) ->
  o <> OpEnable -> o <> OpDisable -> o <> OpPause -> o <> OpResume ->
  flagsMirrored (Host.mkOutput e a p) ->
  flagsMirrored (Host.mkOutput (step o e) a p)
  /\ maxQueueSize (step o e) = maxQueueSize e.
Proof.
  intros Hq He Hd Hp Hr Hm.
  destruct o as [n | cb | created sr ch | | | | | | c |];
    try congruence; try (exfalso; eapply Hq; reflexivity);
    unfold flagsMirrored, hasSink in *; simpl in *.
  - destruct e; simpl in *. split; [exact Hm | reflexivity].
  - destruct (setup_frame created sr ch e) as (-> & -> & _ & -> & -> & ->).
    split; [exact Hm | reflexivity].
  - destruct e as [o cb' [k |] f nx la q m en pa co];
      unfold renderFromQueue; simpl in *;
      destruct en, pa; simpl; try (split; [exact Hm | reflexivity]);
      destruct q; simpl; try (split; [exact Hm | reflexivity]);
      destruct o; simpl; split; try exact Hm; reflexivity.
  - destruct (feed_frame c e) as (-> & _ & -> & -> & -> & ->).
    split; [exact Hm | reflexivity].
  - destruct e as [o cb' [k |] f nx la q m en pa co];
      unfold flush; simpl in *;
      destruct en; simpl; try (split; [exact Hm | reflexivity]);
      destruct o; simpl; split; try exact Hm; reflexivity.
Qed.

Lemma call_keeps (c : Host.Call F64) (h h' : Host.AVFOutput) :
  Host.call F64 cast fcvtn c h = Some h' ->
  consistent (Host.engine h) -> flagsMirrored h ->
  0 <= queueLength (Host.engine h) <= maxQueueSize (Host.engine h) ->
  consistent (Host.engine h') /\ flagsMirrored h'
  /\ maxQueueSize (Host.engine h') = maxQueueSize (Host.engine h)
  /\ 0 <= queueLength (Host.engine h') <= maxQueueSize (Host.engine h').
Proof.
  intros Hcall Hc Hm Hb.
  destruct c as [created x p | b | | |]; simpl in Hcall.
  - destruct (process created x p h) as [[n h1] |] eqn:Hp; simpl in Hcall;
      [| discriminate]. inversion Hcall. subst h1. clear Hcall.
    destruct (process_engine created x p h n h' Hp)
      as [[-> _] | (conv & Ha & Hpa & _ & _ & He & Ha' & Hp')];
      [split; [assumption | split; [assumption | split; [reflexivity | assumption]]] |].
    destruct h as [e a pz], h' as [e' a' pz'].
    cbn [Host.engine Host.is_active Host.is_paused] in *. subst.
    destruct (flagsMirrored_step (OpSetupAudioFormat created
                (Host.get_sample_rate F64 p) (Host.get_channels F64 p))
                e true false) as [Hm1 Hq1]; try discriminate; [exact Hm |].
    destruct (flagsMirrored_step (OpFeed (mkFeedCall x conv
                (Host.get_sample_rate F64 p) (Host.get_channels F64 p)
                (Host.get_sample_count F64 p))) _ true false ltac:(discriminate)
                ltac:(discriminate) ltac:(discriminate) ltac:(discriminate)
                ltac:(discriminate) Hm1) as [Hm2 Hq2].
    split; [apply step_consistent, step_consistent; exact Hc |].
    split; [exact Hm2 |]. split; [congruence |].
    apply step_keeps_bound; [reflexivity |].
    apply step_keeps_bound; [reflexivity | exact Hb].
  - inversion Hcall. subst h'. clear Hcall.
    destruct h as [e a pz]. unfold Host.pause. simpl in *. destruct b.
    + split; [apply (step_consistent OpPause); exact Hc |].
      split; [| split; [| apply (step_keeps_bound OpPause); [reflexivity | exact Hb]]];
        destruct e as [o cb [k |] f nx la q m en pa co];
        unfold flagsMirrored, hasSink, pause in *; simpl in *;
        destruct en, o; simpl in *; intuition congruence.
    + split; [apply (step_consistent OpResume); exact Hc |].
      split; [| split; [| apply (step_keeps_bound OpResume); [reflexivity | exact Hb]]];
        destruct e as [o cb [k |] f nx la q m en pa co];
        unfold flagsMirrored, hasSink, resume in *; simpl in *;
        destruct en, pa, o; simpl in *; intuition congruence.
  - inversion Hcall. subst h'. clear Hcall.
    destruct h as [e a pz]. unfold Host.flush. simpl in *.
    destruct (flagsMirrored_step OpFlush e a pz) as [Hm1 Hq1];
      try discriminate; [exact Hm |].
    split; [apply (step_consistent OpFlush); exact Hc |].
    split; [exact Hm1 |]. split; [exact Hq1 |].
    apply (step_keeps_bound OpFlush); [reflexivity | exact Hb].
  - inversion Hcall. subst h'. clear Hcall.
    destruct h as [e a pz]. unfold Host.force_play. simpl in *.
    split; [apply (step_consistent OpEnable), (step_consistent OpDisable); exact Hc |].
    split; [| split;
      [| apply (step_keeps_bound OpEnable); [reflexivity |];
         apply (step_keeps_bound OpDisable); [reflexivity | exact Hb]]];
      destruct e as [o cb [k |] f nx la q m en pa co];
      unfold flagsMirrored, hasSink, enable, disable in *; simpl in *;
      destruct en, o; simpl in *; intuition congruence.
  - inversion Hcall. subst h'. clear Hcall.
    destruct h as [e a pz]. unfold Host.render_callback. simpl in *.
    destruct (flagsMirrored_step OpRenderFromQueue e a pz) as [Hm1 Hq1];
      try discriminate; [exact Hm |].
    split; [apply (step_consistent OpRenderFromQueue); exact Hc |].
    split; [exact Hm1 |]. split; [exact Hq1 |].
    apply (step_keeps_bound OpRenderFromQueue); [reflexivity | exact Hb].
Qed.

Lemma calls_keep (cs : list (Host.Call F64)) :
  forall h h' : Host.AVFOutput,
  calls cs h = Some h' ->
  consistent (Host.engine h) -> flagsMirrored h ->
  0 <= queueLength (Host.engine h) <= maxQueueSize (Host.engine h) ->
  consistent (Host.engine h') /\ flagsMirrored h'
  /\ maxQueueSize (Host.engine h') = maxQueueSize (Host.engine h)
  /\ 0 <= queueLength (Host.engine h') <= maxQueueSize (Host.engine h').
Proof.
  induction cs as [| c rest IH]; intros h h' Hcs Hc Hm Hb; simpl in Hcs.
  - inversion Hcs. subst.
    split; [assumption | split; [assumption | split; [reflexivity | assumption]]].
  - destruct (Host.call F64 cast fcvtn c h) as [h1 |] eqn:Hcall;
      simpl in Hcs; [| discriminate].
    destruct (call_keeps c h h1 Hcall Hc Hm Hb) as (Hc1 & Hm1 & Hq1 & Hb1).
    destruct (IH h1 h' Hcs Hc1 Hm1 Hb1) as (Hc2 & Hm2 & Hq2 & Hb2).
    split; [assumption | split; [assumption | split; [congruence | assumption]]].
Qed.

Lemma construct_keeps (available : bool) :
  consistent (Host.engine (Host.construct available))
  /\ flagsMirrored (Host.construct available)
  /\ maxQueueSize (Host.engine (Host.construct available)) = 3
  /\ queueLength (Host.engine (Host.construct available)) = 0
  /\ Host.is_active (Host.construct available) = available.
Proof.
  destruct available; unfold consistent, flagsMirrored; simpl;
    repeat split; intros; try discriminate; try reflexivity.
  eexists. split; [reflexivity |]. split; reflexivity.
Qed.

Lemma call_active (c : Host.Call F64) (h h' : Host.AVFOutput) :
  Host.call F64 cast fcvtn c h = Some h' ->
  Host.is_active h' = Host.is_active h.
Proof.
  destruct c as [created x p | b | | |]; simpl; intros H.
  - destruct (process created x p h) as [[n h1] |] eqn:Hp; simpl in H;
      [| discriminate]. inversion H. subst h1.
    destruct (process_engine created x p h n h' Hp)
      as [[-> _] | (conv & _ & _ & _ & _ & _ & Ha & _)];
      [reflexivity | exact Ha].
  - inversion H. reflexivity.
  - inversion H. reflexivity.
  - inversion H. reflexivity.
  - inversion H. reflexivity.
Qed.

Lemma calls_active (cs : list (Host.Call F64)) :
  forall h h' : Host.AVFOutput,
  calls cs h = Some h' -> Host.is_active h' = Host.is_active h.
Proof.
  induction cs as [| c rest IH]; intros h h' H; simpl in H.
  - inversion H. reflexivity.
  - destruct (Host.call F64 cast fcvtn c h) as [h1 |] eqn:Hc; simpl in H;
      [| discriminate].
    rewrite (IH h1 h' H). apply (call_active c h h1 Hc).
Qed.

(** X17: after any calls on a constructed plugin instance (chunks
    processed, pause, flush, force_play, render callbacks), [is_active] is
    still what the constructor's [enable] returned, the engine is enabled
    exactly then, and on an active instance the engine's paused flag equals
    the plugin's [is_paused]. *)
Theorem plugin_flags_mirror_engine (available : bool)
    (cs : list (Host.Call F64)) (h : Host.AVFOutput) :
  calls cs (Host.construct available) = Some h ->
  Host.is_active h = available
  /\ isEnabled (Host.engine h) = available
  /\ (available = true -> isPaused (Host.engine h) = Host.is_paused h).
Proof.
  intros Hcs.
  destruct (construct_keeps available) as (Hc & Hm & Hq & Hl & Ha).
  destruct (calls_keep cs _ h Hcs Hc Hm) as (_ & (H1 & _ & H3) & _);
    [rewrite Hl, Hq; lia |].
  pose proof (calls_active cs _ h Hcs) as Hact. rewrite Ha in Hact.
  split; [exact Hact |]. split; [congruence |].
  intros ->. symmetry. apply H3. exact Hact.
Qed.

Lemma step_same_capacity o e :
  (forall n, o <> OpSetQueueSize n) ->
  maxQueueSize (step o e) = maxQueueSize e.
Proof.
  intros Hq.
  destruct o as [n | cb | created sr ch | | | | | | c |];
    try (exfalso; eapply Hq; reflexivity).
  - destruct e; reflexivity.
  - apply setup_frame.
  - destruct e as [o cb' [k |] f nx la q m en pa co]; unfold enable; simpl;
      destruct en, o; reflexivity.
  - destruct e as [o cb' [k |] f nx la q m en pa co]; unfold disable; simpl;
      destruct en, o; reflexivity.
  - destruct e as [o cb' [k |] f nx la q m en pa co]; unfold pause; simpl;
      destruct en, o; reflexivity.
  - destruct e as [o cb' [k |] f nx la q m en pa co]; unfold resume; simpl;
      destruct en, pa, o; reflexivity.
  - destruct e as [o cb' [k |] f nx la q m en pa co]; unfold renderFromQueue;
      simpl; destruct en, pa, q, o; reflexivity.
  - apply feed_frame.
  - destruct e as [o cb' [k |] f nx la q m en pa co]; unfold flush; simpl;
      destruct en, o; reflexivity.
Qed.

Lemma call_keeps_bound (c : Host.Call F64) (h h' : Host.AVFOutput) :
  Host.call F64 cast fcvtn c h = Some h' ->
  0 <= queueLength (Host.engine h) <= maxQueueSize (Host.engine h) ->
  maxQueueSize (Host.engine h') = maxQueueSize (Host.engine h)
  /\ 0 <= queueLength (Host.engine h') <= maxQueueSize (Host.engine h').
Proof.
  intros Hcall Hb.
  assert (Hops : exists ops,
             Host.engine h' = run ops (Host.engine h)
             /\ Forall (fun o => forall n, o <> OpSetQueueSize n) ops).
  { destruct c as [created x p | b | | |]; simpl in Hcall.
    - destruct (process created x p h) as [[n h1] |] eqn:Hp; simpl in Hcall;
        [| discriminate]. inversion Hcall. subst h1. clear Hcall.
      destruct (process_engine created x p h n h' Hp)
        as [[-> _] | (conv & _ & _ & _ & _ & He & _)].
      + exists []. split; [reflexivity | constructor].
      + eexists [_; _]. split; [exact He |].
        repeat (apply List.Forall_cons; [intros; discriminate |]).
        apply List.Forall_nil.
    - inversion Hcall. destruct b.
      + exists [OpPause]. split; [reflexivity |].
        repeat (apply List.Forall_cons; [intros; discriminate |]).
        apply List.Forall_nil.
      + exists [OpResume]. split; [reflexivity |].
        repeat (apply List.Forall_cons; [intros; discriminate |]).
        apply List.Forall_nil.
    - inversion Hcall. exists [OpFlush]. split; [reflexivity |].
      repeat (apply List.Forall_cons; [intros; discriminate |]).
      apply List.Forall_nil.
    - inversion Hcall. exists [OpDisable; OpEnable]. split; [reflexivity |].
      repeat (apply List.Forall_cons; [intros; discriminate |]).
      apply List.Forall_nil.
    - inversion Hcall. exists [OpRenderFromQueue]. split; [reflexivity |].
      repeat (apply List.Forall_cons; [intros; discriminate |]).
      apply List.Forall_nil. }
  destruct Hops as (ops & -> & Hall). clear Hcall.
  revert Hb. generalize (Host.engine h) as e.
  induction ops as [| o rest IH]; intros e Hb; [split; [reflexivity | exact Hb] |].
  apply Forall_cons in Hall. destruct Hall as [Ho Hrest].
  change (run (o :: rest) e) with (run rest (step o e)).
  destruct (IH Hrest (step o e)) as [Hm Hq].
  { apply step_keeps_bound; [| exact Hb].
    destruct o; try reflexivity. exfalso. eapply Ho. reflexivity. }
  rewrite Hm, <- (step_same_capacity o e Ho) at 1. split; [reflexivity | exact Hq].
Qed.

(** X18: no call the plugin makes after construction changes the engine's
    capacity.  Starting from any instance whose queue is within its
    capacity, after any calls (chunks processed, pause, flush, force_play,
    render callbacks) the capacity is the one the calls began with, and the
    queue, hence [pendingBufferCount], is within it. *)
Theorem plugin_queue_within_capacity (cs : list (Host.Call F64)) :
  forall h0 h : Host.AVFOutput,
  0 <= queueLength (Host.engine h0) <= maxQueueSize (Host.engine h0) ->
  calls cs h0 = Some h ->
  maxQueueSize (Host.engine h) = maxQueueSize (Host.engine h0)
  /\ 0 <= queueLength (Host.engine h) <= maxQueueSize (Host.engine h)
  /\ 0 <= pendingBufferCount (Host.engine h) <= maxQueueSize (Host.engine h).
Proof.
  assert (Hmain : forall h0 h : Host.AVFOutput,
             0 <= queueLength (Host.engine h0) <= maxQueueSize (Host.engine h0) ->
             calls cs h0 = Some h ->
             maxQueueSize (Host.engine h) = maxQueueSize (Host.engine h0)
             /\ 0 <= queueLength (Host.engine h) <= maxQueueSize (Host.engine h)).
  { induction cs as [| c rest IH]; intros h0 h Hb Hcs; simpl in Hcs.
    - inversion Hcs. subst. split; [reflexivity | exact Hb].
    - destruct (Host.call F64 cast fcvtn c h0) as [h1 |] eqn:Hcall;
        simpl in Hcs; [| discriminate].
      destruct (call_keeps_bound c h0 h1 Hcall Hb) as [Hm1 Hb1].
      destruct (IH h1 h Hb1 Hcs) as [Hm2 Hb2].
      split; [congruence | exact Hb2]. }
  intros h0 h Hb Hcs. destruct (Hmain h0 h Hb Hcs) as [Hm Hq].
  split; [exact Hm |]. split; [exact Hq |].
  unfold pendingBufferCount, to_uint32. unfold queueLength in Hq.
  pose proof (Z.mod_pos_bound (Z.of_nat (length (sampleQueue (Host.engine h))))
                (2 ^ 32) ltac:(lia)) as Hp.
  pose proof (Z.mod_le (Z.of_nat (length (sampleQueue (Host.engine h))))
                (2 ^ 32) ltac:(lia) ltac:(lia)) as Hle.
  lia.
Qed.

(** X19: for a chunk whose samples lie inside its buffer,
    [process_samples_v2] returns either 0 or the chunk's sample count and
    keeps the plugin's flags; an inactive or paused instance and a chunk
    with no samples or no channels give 0 with the instance unchanged, and
    a non-zero result means exactly one more unit is queued. *)
Theorem process_samples_outcome (created : bool) (x : Externals)
    (p : Host.audio_chunk F64) (h : Host.AVFOutput) :
  (Host.get_used_size F64 p <= length (Host.get_data F64 p))%nat ->
  exists n h',
    process created x p h = Some (n, h')
    /\ (n = 0 \/ n = Host.get_sample_count F64 p)
    /\ Host.is_active h' = Host.is_active h
    /\ Host.is_paused h' = Host.is_paused h
    /\ (Host.is_active h = false \/ Host.is_paused h = true
        \/ Host.get_sample_count F64 p = 0 \/ Host.get_channels F64 p = 0 ->
        n = 0 /\ h' = h)
    /\ (n <> 0 ->
        queueLength (Host.engine h') = queueLength (Host.engine h) + 1).
Proof.
  intros Hused. unfold Host.process_samples_v2.
  destruct (negb (Host.is_active h) || Host.is_paused h) eqn:Hgate.
  { exists 0, h. split; [reflexivity |]. split; [left; reflexivity |].
    do 2 (split; [reflexivity |]).
    split; [intros _; split; reflexivity | intros H; congruence]. }
  apply orb_false_iff in Hgate. destruct Hgate as [Ha Hp].
  apply negb_false_iff in Ha.
  destruct ((Host.get_sample_count F64 p =? 0) || (Host.get_channels F64 p =? 0))
    eqn:Hempty.
  { exists 0, h. split; [reflexivity |]. split; [left; reflexivity |].
    do 2 (split; [reflexivity |]).
    split; [intros _; split; reflexivity | intros H; congruence]. }
  destruct (neon_convert_length F64 Z cast fcvtn (Host.get_data F64 p)
              (replicate (Host.get_used_size F64 p) 0)
              (Host.get_used_size F64 p) Hused) as (conv & Hconv & _);
    [rewrite length_replicate; lia |].
  rewrite Hconv. cbn [mbind option_bind].
  set (e1 := snd (setupAudioFormat created (Host.get_sample_rate F64 p)
                    (Host.get_channels F64 p) (Host.engine h))).
  set (c := mkFeedCall x conv (Host.get_sample_rate F64 p)
              (Host.get_channels F64 p) (Host.get_sample_count F64 p)).
  change (feedAudioData x conv (Host.get_sample_rate F64 p)
            (Host.get_channels F64 p) (Host.get_sample_count F64 p) e1)
    with (feed c e1).
  destruct (feed c e1) as [n e2] eqn:Hfeed.
  exists n, (Host.mkOutput e2 (Host.is_active h) (Host.is_paused h)).
  assert (Hq1 : sampleQueue e1 = sampleQueue (Host.engine h))
    by (apply setup_frame).
  split; [reflexivity |].
  assert (Hgo : ~ (Host.is_active h = false \/ Host.is_paused h = true
                   \/ Host.get_sample_count F64 p = 0
                   \/ Host.get_channels F64 p = 0)).
  { intros [H | [H | [H | H]]]; try congruence; lia. }
  destruct (Z.eq_dec n 0) as [Hz | Hnz].
  - split; [left; exact Hz |].
    do 2 (split; [reflexivity |]).
    split; [intros H; contradiction | intros H; contradiction].
  - pose proof (feed_accepted c e1) as Hacc. rewrite Hfeed in Hacc.
    simpl in Hacc. destruct (Hacc Hnz) as (Hn & _ & _ & _ & _ & _ & u & Hu & _).
    split; [right; exact Hn |].
    do 2 (split; [reflexivity |]).
    split; [intros H; contradiction |].
    intros _. unfold queueLength. simpl. rewrite Hu, length_app, Hq1.
    simpl. lia.
Qed.

(** X20: when the plugin's flags mirror the engine's and [update] reports
    ready, a chunk with samples and channels whose framework calls succeed
    is accepted in full by [process_samples_v2], whether or not the
    plugin's own [setupAudioFormat] call succeeded. *)
Theorem ready_chunk_is_accepted (created : bool) (x : Externals)
    (p : Host.audio_chunk F64) (h : Host.AVFOutput) :
  flagsMirrored h -> Host.update h = true ->
  playableChunk p -> externalsSucceed x ->
  exists h',
    process created x p h = Some (Host.get_sample_count F64 p, h')
    /\ queueLength (Host.engine h') = queueLength (Host.engine h) + 1.
Proof.
  intros (Hm1 & Hm2 & Hm3) Hup (Hsc & Hch & Hpos & Hused) Hx.
  unfold Host.update in Hup. apply andb_true_iff in Hup.
  destruct Hup as [Hen Hready].
  assert (Hnp : isPaused (Host.engine h) = false).
  { unfold isReadyForMoreMediaData in Hready.
    destruct (isPaused (Host.engine h)); [| reflexivity].
    rewrite orb_true_r in Hready. discriminate. }
  assert (Hroom : queueLength (Host.engine h) < maxQueueSize (Host.engine h)).
  { unfold isReadyForMoreMediaData, queueLength in *.
    rewrite Hen, Hnp in Hready. simpl in Hready. lia. }
  assert (Ha : Host.is_active h = true) by congruence.
  assert (Hp : Host.is_paused h = false) by (rewrite Hm3; assumption).
  assert (Ho : macOS11 (Host.engine h) = true).
  { rewrite Ha in Hm2. symmetry in Hm2. apply andb_true_iff in Hm2. tauto. }
  unfold Host.process_samples_v2. rewrite Ha, Hp. simpl.
  assert (Hne : (Host.get_sample_count F64 p =? 0)
                || (Host.get_channels F64 p =? 0) = false)
    by (apply orb_false_iff; split; apply Z.eqb_neq; assumption).
  rewrite Hne.
  destruct (neon_convert_length F64 Z cast fcvtn (Host.get_data F64 p)
              (replicate (Host.get_used_size F64 p) 0)
              (Host.get_used_size F64 p) Hused) as (conv & Hconv & Hlen);
    [rewrite length_replicate; lia |].
  rewrite length_replicate in Hlen.
  rewrite Hconv. cbn [mbind option_bind].
  set (e1 := snd (setupAudioFormat created (Host.get_sample_rate F64 p)
                    (Host.get_channels F64 p) (Host.engine h))).
  set (c := mkFeedCall x conv (Host.get_sample_rate F64 p)
              (Host.get_channels F64 p) (Host.get_sample_count F64 p)).
  change (feedAudioData x conv (Host.get_sample_rate F64 p)
            (Host.get_channels F64 p) (Host.get_sample_count F64 p) e1)
    with (feed c e1).
  destruct (setup_frame created (Host.get_sample_rate F64 p)
              (Host.get_channels F64 p) (Host.engine h))
    as (So & _ & Sq & Sm & Se & Sp).
  fold e1 in So, Sq, Sm, Se, Sp.
  assert (Hc : acceptableCall c).
  { unfold acceptableCall, c. simpl. repeat split; try assumption.
    - intros ->. simpl in Hlen. lia.
    - apply Hx. - apply Hx. - apply Hx. - apply Hx. - apply Hx. }
  destruct (feed_accepts c e1 Hc) as (Hn & u & Hu); try congruence.
  { unfold queueLength in *. rewrite Sq, Sm. exact Hroom. }
  destruct (feed c e1) as [n e2] eqn:Hfeed. simpl in Hn, Hu. subst n.
  eexists. split; [reflexivity |].
  unfold queueLength. simpl. rewrite Hu, length_app, Sq. simpl. lia.
Qed.

End OutputCorrect.

Lemma plugin_flags_mirror_engine_witness :
  match Host.calls spec_float bits_of_double bits_of_double
          [Host.CallProcess spec_float true externalsOk (silentChunk 3);
           Host.CallPause spec_float true; Host.CallFlush spec_float;
           Host.CallPause spec_float false; Host.CallRender spec_float]
          (Host.construct true) with
  | Some h =>
      Host.is_active h = true /\ isEnabled (Host.engine h) = true
      /\ (true = true -> isPaused (Host.engine h) = Host.is_paused h)
  | None => False
  end.
Proof.
  destruct (Host.calls spec_float bits_of_double bits_of_double
              [Host.CallProcess spec_float true externalsOk (silentChunk 3);
               Host.CallPause spec_float true; Host.CallFlush spec_float;
               Host.CallPause spec_float false; Host.CallRender spec_float]
              (Host.construct true)) as [h |] eqn:E.
  - apply (plugin_flags_mirror_engine spec_float bits_of_double bits_of_double
             true _ h E).
  - vm_compute in E. discriminate E.
Defined.

Lemma plugin_queue_within_capacity_witness :
  match Host.calls spec_float bits_of_double bits_of_double
          (repeat (Host.CallProcess spec_float true externalsOk (silentChunk 3)) 5
           ++ [Host.CallRender spec_float; Host.CallFlush spec_float;
               Host.CallForcePlay spec_float;
               Host.CallProcess spec_float true externalsOk (silentChunk 3)])
          (Host.construct true) with
  | Some h =>
      maxQueueSize (Host.engine h) = maxQueueSize (Host.engine (Host.construct true))
      /\ 0 <= queueLength (Host.engine h) <= maxQueueSize (Host.engine h)
      /\ 0 <= pendingBufferCount (Host.engine h) <= maxQueueSize (Host.engine h)
  | None => False
  end.
Proof.
  destruct (Host.calls spec_float bits_of_double bits_of_double
          (repeat (Host.CallProcess spec_float true externalsOk (silentChunk 3)) 5
           ++ [Host.CallRender spec_float; Host.CallFlush spec_float;
               Host.CallForcePlay spec_float;
               Host.CallProcess spec_float true externalsOk (silentChunk 3)])
              (Host.construct true)) as [h |] eqn:E.
  - assert (Hb : 0 <= queueLength (Host.engine (Host.construct true))
                 <= maxQueueSize (Host.engine (Host.construct true)))
      by (vm_compute; split; discriminate).
    exact (plugin_queue_within_capacity spec_float bits_of_double bits_of_double
             _ (Host.construct true) h Hb E).
  - vm_compute in E. discriminate E.
Defined.

Lemma process_samples_outcome_witness :
  exists n h',
    Host.process_samples_v2 spec_float bits_of_double bits_of_double
      true externalsOk (silentChunk 3) (Host.construct true) = Some (n, h')
    /\ (n = 0 \/ n = Host.get_sample_count spec_float (silentChunk 3))
    /\ Host.is_active h' = Host.is_active (Host.construct true)
    /\ Host.is_paused h' = Host.is_paused (Host.construct true)
    /\ (Host.is_active (Host.construct true) = false
        \/ Host.is_paused (Host.construct true) = true
        \/ Host.get_sample_count spec_float (silentChunk 3) = 0
        \/ Host.get_channels spec_float (silentChunk 3) = 0 ->
        n = 0 /\ h' = Host.construct true)
    /\ (n <> 0 ->
        queueLength (Host.engine h')
        = queueLength (Host.engine (Host.construct true)) + 1).
Proof.
  apply (process_samples_outcome spec_float bits_of_double bits_of_double
           true externalsOk (silentChunk 3) (Host.construct true)).
  simpl. lia.
Defined.

Lemma ready_chunk_is_accepted_witness :
  exists h',
    Host.process_samples_v2 spec_float bits_of_double bits_of_double
      false externalsOk (silentChunk 3) (Host.construct true)
    = Some (3, h')
    /\ queueLength (Host.engine h')
       = queueLength (Host.engine (Host.construct true)) + 1.
Proof.
  apply (ready_chunk_is_accepted spec_float bits_of_double bits_of_double
           false externalsOk (silentChunk 3) (Host.construct true)).
  - unfold flagsMirrored. simpl. repeat split; reflexivity.
  - reflexivity.
  - unfold playableChunk. simpl. repeat split; try discriminate; lia.
  - unfold externalsSucceed. simpl. repeat split; reflexivity.
Defined.
